(** * quest: a chain-able HTTP request builder (Go)

    A shallow embedding of [quest.go] (the single-file revision, with the
    second revision's [Response] methods in [SecondRevision]) and of
    [next.go] and [questmultipart/multipart.go], together with the
    short-circuit properties of the request/response chain.

    Go pointers are modelled by state passing: a method with receiver
    [r *Request] that returns [r] becomes a function from the request's
    contents to its new contents.  A [Response] owns the only pointer to
    its [Request] that the chain uses, so the request is a field of the
    response.  A Go run-time panic (nil map write, nil pointer
    dereference) is the outcome [Panic]. *)

From Stdlib Require Import ZArith Ascii String Numbers.DecimalString.
From stdpp Require Import gmap strings.

Local Open Scope Z_scope.

(** ** Outcomes of Go calls *)

Inductive Res (A : Type) : Type :=
| Ok (a : A)
| Panic (reason : string).
Arguments Ok {A} a.
Arguments Panic {A} reason.

#[global] Instance Res_ret : MRet Res := fun _ a => Ok a.
#[global] Instance Res_bind : MBind Res := fun _ _ k m =>
  match m with
  | Ok a => k a
  | Panic reason => Panic reason
  end.

#[global] Instance Res_fmap : FMap Res := fun _ _ f m =>
  match m with
  | Ok a => Ok (f a)
  | Panic reason => Panic reason
  end.

Definition nil_deref : string := "invalid memory address or nil pointer dereference".
Definition nil_map_write : string := "assignment to entry in nil map".

(** ** The Go standard library functions the source calls on strings *)

Module strings.

(** [strings.HasPrefix(s, prefix)] *)
Fixpoint HasPrefix (s prefix : string) {struct prefix} : bool :=
  match prefix, s with
  | EmptyString, _ => true
  | String c prefix', String d s' =>
      if Ascii.eqb c d then HasPrefix s' prefix' else false
  | String _ _, EmptyString => false
  end.

(** [strings.Contains(s, substr)] *)
Fixpoint Contains (s substr : string) : bool :=
  HasPrefix s substr ||
  match s with
  | EmptyString => false
  | String _ s' => Contains s' substr
  end.

(** [strings.Index(s, substr)]; [None] is Go's -1 *)
Fixpoint Index (s substr : string) : option nat :=
  if HasPrefix s substr then Some O
  else match s with
       | EmptyString => None
       | String _ s' => S <$> Index s' substr
       end.

(** [s[n:]], clamped at the end of [s] *)
Fixpoint drop (n : nat) (s : string) : string :=
  match n, s with
  | O, _ => s
  | S n', String _ s' => drop n' s'
  | S _, EmptyString => EmptyString
  end.

(** [strings.Replace(s, old, new, 1)]: the first instance of [old] is
    replaced; an empty [old] matches at the start of [s]. *)
Fixpoint Replace1 (s old new : string) : string :=
  if HasPrefix s old then new +:+ drop (String.length old) s
  else match s with
       | EmptyString => EmptyString
       | String c s' => String c (Replace1 s' old new)
       end.

(** [strings.ContainsAny(s, chars)] *)
Fixpoint ContainsAny (s chars : string) : bool :=
  match s with
  | EmptyString => false
  | String c s' =>
      Contains chars (String c EmptyString) || ContainsAny s' chars
  end.

End strings.

Module fmt.
(** The verb [%d] applied to an [int]. *)
Definition d (n : Z) : string := NilZero.string_of_int (Z.to_int n).
End fmt.

(** ** Data model *)

(** [url.URL], with the fields that [url.Parse] fills for the forms
    [scheme:opaque] and [[scheme:][//host]path[?query][#fragment]]
    without user information and percent-escapes. *)
Record URL : Type := mkURL {
  Scheme : string;
  Opaque : string;
  Host : string;
  Path : string;
  OmitHost : bool;
  ForceQuery : bool;
  RawQuery : string;
  Fragment : string
}.

(** [url.Values] *)
Abbreviation Values := (gmap string (list string)).

(** Go's [error] values that reach a request's [err] field.  The
    [Request] and [Response] pointers held by [requestError] and
    [responseError] always point back at the chain's own request and
    response; only [message] is data of its own.  A nil [error] is
    [None : option error]. *)
Inductive error : Type :=
| errorString (text : string)
| requestError (message : string)
| responseError (message : string).

(** [http.Header], keyed by canonical MIME header keys. *)
Abbreviation Header_t := (gmap string (list string)).

(** [io.ReadCloser]: the bytes not read yet, how many times [Close] was
    called, and whether [Close] reaches the stream ([false] for
    [ioutil.NopCloser]). *)
Record Stream : Type := mkStream {
  unread : string;
  closes : nat;
  closer : bool
}.

(** [http.Response]; a nil [Body] is [None]. *)
Record http_Response : Type := mkHTTP {
  StatusCode : Z;
  Header : Header_t;
  Body : option Stream;
  ContentLength : Z
}.

(** [&http.Response{}] *)
Definition http_Response_zero : http_Response :=
  {| StatusCode := 0; Header := ∅; Body := None; ContentLength := 0 |}.

(** What [Send] hands to [client.Do]. *)
Record Call : Type := mkCall {
  call_method : string;
  call_url : string;
  call_headers : gmap string string;
  call_body : string
}.

(** [Request]: nil [*url.URL], nil [*bytes.Buffer] and nil map are [None];
    [span] tells whether a tracing span is attached. *)
Record Request : Type := mkRequest {
  URL_ : option URL;
  method : string;
  data : option string;
  headers : option (gmap string string);
  err : option error;
  span : bool
}.

(** [Response]: the embedded [*http.Response] (nil is [None]) and the
    request it points to. *)
Record Response : Type := mkResponse {
  Response_ : option http_Response;
  req : Request
}.

(** [Next] *)
Record Next : Type := mkNext { next_err : option error }.

(** [questmultipart.Form]; [Writer] is the boundary of the
    [*multipart.Writer]. *)
Record Form : Type := mkForm {
  Buffer : option string;
  Writer : string;
  Err : option error
}.

Definition set_URL (u : option URL) (r : Request) : Request :=
  {| URL_ := u; method := method r; data := data r; headers := headers r;
     err := err r; span := span r |}.
Definition set_data (b : option string) (r : Request) : Request :=
  {| URL_ := URL_ r; method := method r; data := b; headers := headers r;
     err := err r; span := span r |}.
Definition set_headers (h : option (gmap string string)) (r : Request) : Request :=
  {| URL_ := URL_ r; method := method r; data := data r; headers := h;
     err := err r; span := span r |}.
Definition set_err (e : option error) (r : Request) : Request :=
  {| URL_ := URL_ r; method := method r; data := data r; headers := headers r;
     err := e; span := span r |}.
Definition set_span (b : bool) (r : Request) : Request :=
  {| URL_ := URL_ r; method := method r; data := data r; headers := headers r;
     err := err r; span := b |}.
Definition set_RawQuery (q : string) (u : URL) : URL :=
  {| Scheme := Scheme u; Opaque := Opaque u; Host := Host u; Path := Path u;
     OmitHost := OmitHost u; ForceQuery := ForceQuery u;
     RawQuery := q; Fragment := Fragment u |}.
Definition set_req (q : Request) (r : Response) : Response :=
  {| Response_ := Response_ r; req := q |}.
Definition set_Body (b : option Stream) (h : http_Response) : http_Response :=
  {| StatusCode := StatusCode h; Header := Header h; Body := b;
     ContentLength := ContentLength h |}.

(** ** Operations and what they leave behind *)

(** What an operation leaves outside the response: a value stored
    through an [into] pointer, bytes copied to an [io.Writer], bytes
    printed on standard output. *)
Inductive Output (V : Type) : Type :=
| Stored (v : string)
| Decoded (v : V)
| Copied (bytes : string)
| Printed (text : string).

(** An [io.Writer]: the bytes it accepts and the error of the write. *)
Definition Writer_t : Type := string -> string * option string.

(** The builder operations of a chain; [V] is the type behind the
    [interface{}] argument of [JSONBody]. *)
Inductive RequestOp (V : Type) : Type :=
| OpStartSpan
| OpHeader (key value : string)
| OpBasicAuth (username password : string)
| OpQueryParam (key value : string)
| OpParam (key value : string)
| OpBody (value : option string)
| OpJSONBody (value : V)
| OpMultipartBody (form : option Form).

(** The response operations of a chain *)
Inductive ResponseOp : Type :=
| OpProxy (w : Writer_t)
| OpExpectSuccess
| OpExpectStatusCode (code : Z)
| OpExpectHeader (key value : string)
| OpExpectType (value : string)
| OpGetHeader (key : string)
| OpPrintJSON
| OpGetBody
| OpGetJSON.

(** What a finished chain leaves behind: the response object, the error
    [Done] returns, the calls made to the transport and the outputs. *)
Record Outcome (V : Type) : Type := mkOutcome {
  final : Response;
  result : option error;
  wire : list Call;
  outputs : list (Output V)
}.

Arguments Stored {V} v.
Arguments Decoded {V} v.
Arguments Copied {V} bytes.
Arguments Printed {V} text.
Arguments OpStartSpan {V}.
Arguments OpHeader {V} key value.
Arguments OpBasicAuth {V} username password.
Arguments OpQueryParam {V} key value.
Arguments OpParam {V} key value.
Arguments OpBody {V} value.
Arguments OpJSONBody {V} value.
Arguments OpMultipartBody {V} form.
Arguments mkOutcome {V} final result wire outputs.
Arguments final {V} o.
Arguments result {V} o.
Arguments wire {V} o.
Arguments outputs {V} o.

(** ** External collaborators

    Packages the source imports and whose code is not part of the
    repository: [net/url], [encoding/json], [encoding/base64],
    [net/http] and [strconv] (behind [%q]).  A failing call yields the
    text of its error. *)
Record Env : Type := mkEnv {
  JSONValue : Type;
  url_Parse : string -> URL + string;
  url_String : URL -> string;
  url_ParseQuery : string -> Values;
  url_Encode : Values -> string;
  base64_EncodeToString : string -> string;
  json_Marshal : JSONValue -> string + string;
  json_Decode : string -> (JSONValue + string) * string;
  json_Indent : string -> string;
  http_NewRequest : string -> string -> option string;
  client_Do : Call -> option http_Response * option string;
  strconv_Quote : string -> string
}.

(** What a response operation returns: the response and its outputs. *)
Abbreviation Step E := (Res (Response * list (Output (JSONValue E)))).

(** [http.MethodGet] and friends *)
Definition MethodGet : string := "GET".
Definition MethodPost : string := "POST".
Definition MethodPut : string := "PUT".
Definition MethodDelete : string := "DELETE".

Module multipart.
(** [FormDataContentType] of [multipart.Writer]: the boundary is quoted
    when it holds a tspecial of RFC 2045 or a space. *)
Definition quote : string := String (ascii_of_nat 34) EmptyString.
Definition tspecials : string := "()<>@,;:\" +:+ quote +:+ "/[]?= ".
Definition FormDataContentType (boundary : string) : string :=
  let b := if strings.ContainsAny boundary tspecials
           then quote +:+ boundary +:+ quote else boundary in
  "multipart/form-data; boundary=" +:+ b.
End multipart.

(** [handleRequestError(err, req)] and [handleResponseError(err, req, resp)],
    applied to the text [err.Error()]. *)
Definition handleRequestError (text : string) : error := requestError text.
Definition handleResponseError (text : string) : error := responseError text.

Module textproto.
(** [validHeaderFieldByte]: the token characters of RFC 7230. *)
Definition is_upper (c : ascii) : bool :=
  let n := nat_of_ascii c in (65 <=? n)%nat && (n <=? 90)%nat.
Definition is_lower (c : ascii) : bool :=
  let n := nat_of_ascii c in (97 <=? n)%nat && (n <=? 122)%nat.
Definition is_digit (c : ascii) : bool :=
  let n := nat_of_ascii c in (48 <=? n)%nat && (n <=? 57)%nat.
Definition validHeaderFieldByte (c : ascii) : bool :=
  is_upper c || is_lower c || is_digit c
  || strings.Contains "!#$%&'*+-.^_`|~" (String c EmptyString).

Fixpoint all_valid (s : string) : bool :=
  match s with
  | EmptyString => true
  | String c s' => validHeaderFieldByte c && all_valid s'
  end.

(** The loop of [canonicalMIMEHeaderKey]: a letter is upper case at the
    start and after a hyphen, lower case elsewhere. *)
Fixpoint canonical (upper : bool) (s : string) : string :=
  match s with
  | EmptyString => EmptyString
  | String c s' =>
      let c' := if upper && is_lower c then ascii_of_nat (nat_of_ascii c - 32)
                else if negb upper && is_upper c
                     then ascii_of_nat (nat_of_ascii c + 32)
                     else c in
      String c' (canonical (Ascii.eqb c' "-") s')
  end.

(** [textproto.CanonicalMIMEHeaderKey]: a key with a byte that is not a
    token character is returned as it is. *)
Definition CanonicalMIMEHeaderKey (s : string) : string :=
  if all_valid s then canonical true s else s.
End textproto.

(** [http.Header.Get(key)]: the first value under the canonical key. *)
Definition Header_Get (h : Header_t) (key : string) : string :=
  match h !! textproto.CanonicalMIMEHeaderKey key with
  | Some (v :: _) => v
  | _ => EmptyString
  end.

(** Reading a stream to its end, and [Close]. *)
Definition read_all (s : Stream) : string * Stream :=
  (if closer s && (0 <? closes s)%nat then EmptyString else unread s,
   {| unread := EmptyString; closes := closes s; closer := closer s |}).

Definition Close (s : Stream) : Stream :=
  if closer s
  then {| unread := unread s; closes := S (closes s); closer := true |}
  else s.

(** [ioutil.NopCloser(bytes.NewBuffer(buffer))] *)
Definition NopCloser (buffer : string) : Stream :=
  {| unread := buffer; closes := 0; closer := false |}.

Definition newline : string := String (ascii_of_nat 10) EmptyString.

(** ** The request builder ([quest.go], lines 42-250) *)

Section Quest.

Variable E : Env.

(** [New(method, path)] *)
Definition New (method path : string) : Request :=
  match url_Parse E path with
  | inr text =>
      {| URL_ := None; method := EmptyString; data := None; headers := None;
         err := Some (errorString
                        ("error parsing url " +:+ strconv_Quote E path
                           +:+ ": " +:+ text));
         span := false |}
  | inl u =>
      {| URL_ := Some u; method := method; data := Some EmptyString;
         headers := Some (<["Accept" := "application/json"]>
                            (<["User-Agent" := "quest/v1"]> ∅));
         err := None; span := false |}
  end.

Definition Get (path : string) : Request := New MethodGet path.
Definition Post (path : string) : Request := New MethodPost path.
Definition Put (path : string) : Request := New MethodPut path.
Definition Delete (path : string) : Request := New MethodDelete path.

(** [(n *Next) New(method, path)] and its four forms *)
Definition Next_New (n : Next) (method path : string) : Request :=
  let req := New method path in
  match err req with
  | None => set_err (next_err n) req
  | Some _ => req
  end.

Definition Next_Get (n : Next) (path : string) : Request := Next_New n MethodGet path.
Definition Next_Post (n : Next) (path : string) : Request := Next_New n MethodPost path.
Definition Next_Put (n : Next) (path : string) : Request := Next_New n MethodPut path.
Definition Next_Delete (n : Next) (path : string) : Request := Next_New n MethodDelete path.

(** [StartSpan(ctx)]: the span is attached whatever [err] holds. *)
Definition StartSpan (r : Request) : Res Request := Ok (set_span true r).

(** [Header(key, value)] *)
Definition Header_set (key value : string) (r : Request) : Res Request :=
  match err r with
  | Some _ => Ok r
  | None =>
      match headers r with
      | None => Panic nil_map_write
      | Some h => Ok (set_headers (Some (<[key := value]> h)) r)
      end
  end.

(** [BasicAuth(username, password)] *)
Definition BasicAuth (username password : string) (r : Request) : Res Request :=
  match err r with
  | Some _ => Ok r
  | None =>
      let auth := username +:+ ":" +:+ password in
      match headers r with
      | None => Panic nil_map_write
      | Some h =>
          Ok (set_headers
                (Some (<["Authorization" :=
                           "Basic " +:+ base64_EncodeToString E auth]> h)) r)
      end
  end.

(** [url.Values.Add(key, value)] *)
Definition Values_Add (key value : string) (q : Values) : Values :=
  <[key := default [] (q !! key) ++ [value]]> q.

(** [QueryParam(key, value)] *)
Definition QueryParam (key value : string) (r : Request) : Res Request :=
  match err r with
  | Some _ => Ok r
  | None =>
      match URL_ r with
      | None => Panic nil_deref
      | Some u =>
          let q := Values_Add key value (url_ParseQuery E (RawQuery u)) in
          Ok (set_URL (Some (set_RawQuery (url_Encode E q) u)) r)
      end
  end.

(** [Param(key, value)] *)
Definition Param (key value : string) (r : Request) : Res Request :=
  match err r with
  | Some _ => Ok r
  | None =>
      match URL_ r with
      | None => Panic nil_deref
      | Some u =>
          let path := strings.Replace1 (url_String E u) (":" +:+ key) value in
          match url_Parse E path with
          | inr text => Ok (set_err (Some (handleRequestError text)) r)
          | inl url => Ok (set_URL (Some url) r)
          end
      end
  end.

(** [Body(value)] *)
Definition Body_set (value : option string) (r : Request) : Res Request :=
  match err r with
  | Some _ => Ok r
  | None => Ok (set_data value r)
  end.

(** [JSONBody(value)] *)
Definition JSONBody (value : JSONValue E) (r : Request) : Res Request :=
  match err r with
  | Some _ => Ok r
  | None =>
      match json_Marshal E value with
      | inr text => Ok (set_err (Some (handleRequestError text)) r)
      | inl b =>
          r1 ← Header_set "Content-Type" "application/json" r;
          Body_set (Some b) r1
      end
  end.

(** [MultipartBody(form)]; a nil [form] is [None]. *)
Definition MultipartBody (form : option Form) (r : Request) : Res Request :=
  match err r with
  | Some _ => Ok r
  | None =>
      match form with
      | None => Panic nil_deref
      | Some f =>
          r1 ← Header_set "Content-Type"
                 (multipart.FormDataContentType (Writer f)) r;
          Body_set (Buffer f) (set_err (Err f) r1)
      end
  end.

(** [Send()]: the response, and the calls made to [client.Do].  The
    tracing tags and header injection of a request with a span change
    nothing the chain can observe and are left out. *)
Definition Send (r : Request) : Res (Response * list Call) :=
  match err r with
  | Some _ => Ok ({| Response_ := Some http_Response_zero; req := r |}, [])
  | None =>
      match URL_ r with
      | None => Panic nil_deref
      | Some u =>
          match http_NewRequest E (method r) (url_String E u) with
          | Some text =>
              Ok ({| Response_ := Some http_Response_zero;
                     req := set_err (Some (handleRequestError text)) r |}, [])
          | None =>
              match data r with
              | None => Panic nil_deref
              | Some body =>
                  let call := {| call_method := method r;
                                 call_url := url_String E u;
                                 call_headers := default ∅ (headers r);
                                 call_body := body |} in
                  match client_Do E call with
                  | (resp, Some text) =>
                      Ok ({| Response_ := resp;
                             req := set_err (Some (handleRequestError text)) r |},
                          [call])
                  | (resp, None) =>
                      Ok ({| Response_ := resp; req := r |}, [call])
                  end
              end
          end
      end
  end.

(** ** The response inspector ([quest.go], lines 252-392) *)

(** [r.req.err = handleResponseError(err, r.req, r)] *)
Definition fail (text : string) (r : Response) : Response :=
  set_req (set_err (Some (handleResponseError text)) (req r)) r.

Definition with_Body (s : Stream) (h : http_Response) (r : Response) : Response :=
  {| Response_ := Some (set_Body (Some s) h); req := req r |}.

(** [Proxy(w)] *)
Definition Proxy (w : Writer_t) (r : Response) : Step E :=
  match err (req r) with
  | Some _ => Ok (r, [])
  | None =>
      match Response_ r with
      | None => Panic nil_deref
      | Some h =>
          match Body h with
          | None => Panic nil_deref
          | Some s =>
              let (content, s1) := read_all s in
              let (accepted, werr) := w content in
              let r1 := with_Body s1 h r in
              match werr with
              | Some text => Ok (fail text r1, [Copied accepted])
              | None => Ok (r1, [Copied accepted])
              end
          end
      end
  end.

(** [ExpectSuccess()] *)
Definition ExpectSuccess (r : Response) : Step E :=
  match err (req r) with
  | Some _ => Ok (r, [])
  | None =>
      match Response_ r with
      | None => Panic nil_deref
      | Some h =>
          let actual := StatusCode h in
          if (actual <? 200) || (actual >=? 300)
          then Ok (fail ("Invalid StatusCode. Expected to be in 200 range, got '"
                           +:+ fmt.d actual +:+ "'") r, [])
          else Ok (r, [])
      end
  end.

(** [ExpectStatusCode(code)] *)
Definition ExpectStatusCode (code : Z) (r : Response) : Step E :=
  match err (req r) with
  | Some _ => Ok (r, [])
  | None =>
      match Response_ r with
      | None => Panic nil_deref
      | Some h =>
          let actual := StatusCode h in
          if negb (actual =? code)
          then Ok (fail ("Invalid StatusCode. Expected to be '" +:+ fmt.d code
                           +:+ "', got '" +:+ fmt.d actual +:+ "'") r, [])
          else Ok (r, [])
      end
  end.

(** [ExpectHeader(key, value)] *)
Definition ExpectHeader (key value : string) (r : Response) : Step E :=
  match err (req r) with
  | Some _ => Ok (r, [])
  | None =>
      match Response_ r with
      | None => Panic nil_deref
      | Some h =>
          let actual := Header_Get (Header h) key in
          if negb (strings.Contains actual value)
          then Ok (fail ("Invalid Header. Expected " +:+ strconv_Quote E key
                           +:+ " header to be " +:+ strconv_Quote E value
                           +:+ ", got " +:+ strconv_Quote E actual) r, [])
          else Ok (r, [])
      end
  end.

(** The map of MIME type aliases of [ExpectType] *)
Definition types : gmap string string :=
  <["html" := "text/html"]>
  (<["json" := "application/json"]>
  (<["xml" := "application/xml"]>
  (<["text" := "text/plain"]>
  (<["urlencoded" := "application/x-www-form-urlencoded"]>
  (<["form" := "application/x-www-form-urlencoded"]>
  (<["form-data" := "application/x-www-form-urlencoded"]> ∅)))))).

(** [ExpectType(value)] *)
Definition ExpectType (value : string) (r : Response) : Step E :=
  match err (req r) with
  | Some _ => Ok (r, [])
  | None =>
      let typeValue := match types !! value with
                       | Some v => v
                       | None => value
                       end in
      ExpectHeader "Content-Type" typeValue r
  end.

(** [GetHeader(key, into)] *)
Definition GetHeader (key : string) (r : Response) : Step E :=
  match err (req r) with
  | Some _ => Ok (r, [])
  | None =>
      match Response_ r with
      | None => Panic nil_deref
      | Some h => Ok (r, [Stored (Header_Get (Header h) key)])
      end
  end.

(** [PrintJSON()] *)
Definition PrintJSON (r : Response) : Step E :=
  match err (req r) with
  | Some _ => Ok (r, [])
  | None =>
      match Response_ r with
      | None => Panic nil_deref
      | Some h =>
          match Body h with
          | None => Panic nil_deref
          | Some s =>
              let buffer := fst (read_all s) in
              Ok (with_Body (NopCloser buffer) h r,
                  [Printed ("Response JSON:" +:+ json_Indent E buffer +:+ newline)])
          end
      end
  end.

(** [GetBody(into)] *)
Definition GetBody (r : Response) : Step E :=
  match err (req r) with
  | Some _ => Ok (r, [])
  | None =>
      match Response_ r with
      | None => Panic nil_deref
      | Some h =>
          match Body h with
          | None => Panic nil_deref
          | Some s =>
              let (content, s1) := read_all s in
              Ok (with_Body (Close s1) h r, [Stored content])
          end
      end
  end.

(** [GetJSON(into)] *)
Definition GetJSON (r : Response) : Step E :=
  match err (req r) with
  | Some _ => Ok (r, [])
  | None =>
      match Response_ r with
      | None => Panic nil_deref
      | Some h =>
          match Body h with
          | None => Panic nil_deref
          | Some s =>
              let content := fst (read_all s) in
              let (decoded, rest) := json_Decode E content in
              let s1 := Close {| unread := rest; closes := closes s;
                                 closer := closer s |} in
              match decoded with
              | inr text => Ok (fail text (with_Body s1 h r), [])
              | inl v => Ok (with_Body s1 h r, [Decoded v])
              end
          end
      end
  end.

(** [Next()] *)
Definition Response_Next (r : Response) : Next := {| next_err := err (req r) |}.

(** [Done()] *)
Definition Done (r : Response) : option error := err (req r).

(** ** Chains

    A fluent chain is a list of builder operations, [Send], a list of
    response operations and [Done]. *)

Definition apply_request_op (o : RequestOp (JSONValue E)) (r : Request) : Res Request :=
  match o with
  | OpStartSpan => StartSpan r
  | OpHeader key value => Header_set key value r
  | OpBasicAuth username password => BasicAuth username password r
  | OpQueryParam key value => QueryParam key value r
  | OpParam key value => Param key value r
  | OpBody value => Body_set value r
  | OpJSONBody value => JSONBody value r
  | OpMultipartBody form => MultipartBody form r
  end.

Fixpoint build (ops : list (RequestOp (JSONValue E))) (r : Request) : Res Request :=
  match ops with
  | [] => Ok r
  | o :: ops' => r1 ← apply_request_op o r; build ops' r1
  end.

Definition apply_response_op (o : ResponseOp) (r : Response) : Step E :=
  match o with
  | OpProxy w => Proxy w r
  | OpExpectSuccess => ExpectSuccess r
  | OpExpectStatusCode code => ExpectStatusCode code r
  | OpExpectHeader key value => ExpectHeader key value r
  | OpExpectType value => ExpectType value r
  | OpGetHeader key => GetHeader key r
  | OpPrintJSON => PrintJSON r
  | OpGetBody => GetBody r
  | OpGetJSON => GetJSON r
  end.

Fixpoint inspect (ops : list ResponseOp) (r : Response) : Step E :=
  match ops with
  | [] => Ok (r, [])
  | o :: ops' =>
      '(r1, out1) ← apply_response_op o r;
      '(r2, out2) ← inspect ops' r1;
      Ok (r2, out1 ++ out2)
  end.

Definition chain (bops : list (RequestOp (JSONValue E))) (rops : list ResponseOp)
    (r : Request) : Res (Outcome (JSONValue E)) :=
  r1 ← build bops r;
  '(p, calls) ← Send r1;
  '(p1, outs) ← inspect rops p;
  Ok {| final := p1; result := Done p1; wire := calls; outputs := outs |}.

End Quest.

(** ** The second revision of the response ([quest.go], lines 494-706)

    [GetBody] and [GetJSON] no longer close the body; [Done] does. *)

Module SecondRevision.
Section Response2.

Variable E : Env.

(** [GetBody(into)] *)
Definition GetBody (r : Response) : Step E :=
  match err (req r) with
  | Some _ => Ok (r, [])
  | None =>
      match Response_ r with
      | None => Panic nil_deref
      | Some h =>
          match Body h with
          | None => Panic nil_deref
          | Some s =>
              let (content, s1) := read_all s in
              Ok (with_Body s1 h r, [Stored content])
          end
      end
  end.

(** [GetJSON(into)] *)
Definition GetJSON (r : Response) : Step E :=
  match err (req r) with
  | Some _ => Ok (r, [])
  | None =>
      match Response_ r with
      | None => Panic nil_deref
      | Some h =>
          match Body h with
          | None => Panic nil_deref
          | Some s =>
              let content := fst (read_all s) in
              let (decoded, rest) := json_Decode E content in
              let s1 := {| unread := rest; closes := closes s;
                           closer := closer s |} in
              match decoded with
              | inr text => Ok (fail text (with_Body s1 h r), [])
              | inl v => Ok (with_Body s1 h r, [Decoded v])
              end
          end
      end
  end.

(** [Next()] *)
Definition Response_Next (r : Response) : Next := {| next_err := err (req r) |}.

(** [Done()]: [r.Body.Close()] comes before the error is read. *)
Definition Done (r : Response) : Res (Response * option error) :=
  match Response_ r with
  | None => Panic nil_deref
  | Some h =>
      match Body h with
      | None => Panic nil_deref
      | Some s => Ok (with_Body (Close s) h r, err (req r))
      end
  end.

End Response2.
End SecondRevision.

(** ** A reference instance of the collaborators

    Used to run chains on concrete inputs.  [Parse] and [String] follow
    [net/url] on URLs without user information, IPv6 literals and
    percent-escapes whose host, path and fragment need no escaping;
    anything else is refused with [unsupported].  On that subset the
    fields and the error texts are those of [net/url]. *)

Module Ref.

Definition is_letter (c : ascii) : bool :=
  textproto.is_upper c || textproto.is_lower c.
Definition is_alnum (c : ascii) : bool := is_letter c || textproto.is_digit c.
Definition one_of (chars : string) (c : ascii) : bool :=
  strings.Contains chars (String c EmptyString).

Fixpoint all (p : ascii -> bool) (s : string) : bool :=
  match s with
  | EmptyString => true
  | String c s' => p c && all p s'
  end.

(** [strings.Cut(s, sep)] for a one-byte separator *)
Fixpoint Cut (sep : ascii) (s : string) : string * string :=
  match s with
  | EmptyString => (EmptyString, EmptyString)
  | String c s' =>
      if Ascii.eqb c sep then (EmptyString, s')
      else let (before, after) := Cut sep s' in (String c before, after)
  end.

(** [before] and [sep ++ after] at the last [sep], when there is one *)
Fixpoint CutLast (sep : ascii) (s : string) : option (string * string) :=
  match s with
  | EmptyString => None
  | String c s' =>
      match CutLast sep s' with
      | Some (before, after) => Some (String c before, after)
      | None => if Ascii.eqb c sep then Some (EmptyString, s) else None
      end
  end.

Fixpoint ToLower (s : string) : string :=
  match s with
  | EmptyString => EmptyString
  | String c s' =>
      String (if textproto.is_upper c then ascii_of_nat (nat_of_ascii c + 32) else c)
             (ToLower s')
  end.

(** [strconv.Quote] on printable ASCII *)
Fixpoint quote_body (s : string) : string :=
  match s with
  | EmptyString => EmptyString
  | String c s' =>
      if one_of multipart.quote c || Ascii.eqb c "\"
      then String "\" (String c (quote_body s'))
      else String c (quote_body s')
  end.
Definition Quote (s : string) : string :=
  multipart.quote +:+ quote_body s +:+ multipart.quote.

Definition nonempty (s : string) : bool := negb (String.eqb s EmptyString).

Definition unsupported : string := "outside the modelled subset of net/url".

Inductive scheme_scan : Type :=
| NoScheme
| SchemeEnds (i : nat)
| MissingScheme.

(** The loop of [getScheme] *)
Fixpoint scanScheme (i : nat) (s : string) : scheme_scan :=
  match s with
  | EmptyString => NoScheme
  | String c s' =>
      if is_letter c then scanScheme (S i) s'
      else if textproto.is_digit c || one_of "+-." c
      then (if (i =? 0)%nat then NoScheme else scanScheme (S i) s')
      else if Ascii.eqb c ":"
      then (if (i =? 0)%nat then MissingScheme else SchemeEnds i)
      else NoScheme
  end.

Definition getScheme (rawURL : string) : string * string + string :=
  match scanScheme 0 rawURL with
  | NoScheme => inl (EmptyString, rawURL)
  | SchemeEnds i => inl (String.substring 0 i rawURL, strings.drop (S i) rawURL)
  | MissingScheme => inr "missing protocol scheme"
  end.

Definition stringContainsCTLByte (s : string) : bool :=
  negb (all (fun c => (32 <=? nat_of_ascii c)%nat
                      && negb (nat_of_ascii c =? 127)%nat) s).

(** [validOptionalPort] *)
Definition validOptionalPort (port : string) : bool :=
  match port with
  | EmptyString => true
  | String c digits => Ascii.eqb c ":" && all textproto.is_digit digits
  end.

Definition host_byte (c : ascii) : bool :=
  is_alnum c || one_of ("!$&'()*+,;=:[]<>-_.~" +:+ multipart.quote) c.
Definition path_byte (c : ascii) : bool := is_alnum c || one_of "-_.~$&+,/:;=@" c.
Definition fragment_byte (c : ascii) : bool :=
  is_alnum c || one_of "-_.~$&+,/:;=?@!()*" c.

(** [parseAuthority] and [parseHost] *)
Definition parseHost (authority : string) : string + string :=
  if one_of authority "@" || one_of authority "%"
     || strings.HasPrefix authority "["
     || negb (all (fun c => (nat_of_ascii c <? 128)%nat) authority)
  then inr unsupported
  else
    let bad_port :=
      match CutLast ":" authority with
      | Some (_, colonPort) =>
          if validOptionalPort colonPort then None else Some colonPort
      | None => None
      end in
    match bad_port with
    | Some colonPort => inr ("invalid port " +:+ Quote colonPort +:+ " after host")
    | None =>
        if all host_byte authority then inl authority
        else inr "invalid character in host name"
    end.

(** [parse(rawURL, false)] *)
Definition parse (rawURL : string) : URL + string :=
  if stringContainsCTLByte rawURL
  then inr "net/url: invalid control character in URL"
  else if String.eqb rawURL "*"
  then inl (mkURL EmptyString EmptyString EmptyString "*" false false
                  EmptyString EmptyString)
  else
    match getScheme rawURL with
    | inr text => inr text
    | inl (scheme, rest0) =>
        let scheme := ToLower scheme in
        let '(rest, query) := Cut "?" rest0 in
        let force := one_of rest0 "?" && String.eqb query EmptyString in
        if negb (strings.HasPrefix rest "/") && nonempty scheme
        then inl (mkURL scheme rest EmptyString EmptyString false force
                        query EmptyString)
        else if negb (strings.HasPrefix rest "/")
                && one_of (fst (Cut "/" rest)) ":"
        then inr "first path segment in URL cannot contain colon"
        else
          let with_path (host path : string) (omit : bool) : URL + string :=
            if all path_byte path
            then inl (mkURL scheme EmptyString host path omit force
                            query EmptyString)
            else inr unsupported in
          if (nonempty scheme || negb (strings.HasPrefix rest "///"))
             && strings.HasPrefix rest "//"
          then
            let '(authority, tail) := Cut "/" (strings.drop 2 rest) in
            let path := if one_of (strings.drop 2 rest) "/"
                        then String "/" tail else EmptyString in
            match parseHost authority with
            | inr text => inr text
            | inl host => with_path host path false
            end
          else with_path EmptyString rest
                 (nonempty scheme && strings.HasPrefix rest "/")
    end.

(** [url.Parse] *)
Definition Parse (rawURL : string) : URL + string :=
  let '(u, frag) := Cut "#" rawURL in
  match parse u with
  | inr text => inr ("parse " +:+ Quote u +:+ ": " +:+ text)
  | inl url =>
      if all fragment_byte frag
      then inl (mkURL (Scheme url) (Opaque url) (Host url) (Path url)
                      (OmitHost url) (ForceQuery url) (RawQuery url) frag)
      else inr ("parse " +:+ Quote rawURL +:+ ": " +:+ unsupported)
  end.

(** [(u *URL) String()] *)
Definition String_ (u : URL) : string :=
  let scheme := if nonempty (Scheme u) then Scheme u +:+ ":" else EmptyString in
  let body :=
    if nonempty (Opaque u) then scheme +:+ Opaque u
    else
      let authority :=
        if nonempty (Scheme u) || nonempty (Host u)
        then if OmitHost u && negb (nonempty (Host u)) then EmptyString
             else (if nonempty (Host u) || nonempty (Path u)
                   then "//" else EmptyString) +:+ Host u
        else EmptyString in
      let buf := scheme +:+ authority in
      let slash := if nonempty (Path u) && negb (strings.HasPrefix (Path u) "/")
                      && nonempty (Host u)
                   then "/" else EmptyString in
      let dot := if negb (nonempty (buf +:+ slash))
                    && one_of (fst (Cut "/" (Path u))) ":"
                 then "./" else EmptyString in
      buf +:+ slash +:+ dot +:+ Path u in
  let query := if ForceQuery u || nonempty (RawQuery u)
               then "?" +:+ RawQuery u else EmptyString in
  let fragment := if nonempty (Fragment u)
                  then "#" +:+ Fragment u else EmptyString in
  body +:+ query +:+ fragment.

(** *** Query strings *)

Definition hex_digits : string := "0123456789ABCDEF".
Definition hex (n : nat) : ascii :=
  default "0"%char (String.get (n mod 16) hex_digits).

Definition unhex (c : ascii) : option nat :=
  let n := nat_of_ascii c in
  if textproto.is_digit c then Some (n - 48)%nat
  else if (97 <=? n)%nat && (n <=? 102)%nat then Some (n - 87)%nat
  else if (65 <=? n)%nat && (n <=? 70)%nat then Some (n - 55)%nat
  else None.

(** [url.QueryEscape] *)
Fixpoint QueryEscape (s : string) : string :=
  match s with
  | EmptyString => EmptyString
  | String c s' =>
      if is_alnum c || one_of "-_.~" c then String c (QueryEscape s')
      else if Ascii.eqb c " " then String "+" (QueryEscape s')
      else String "%" (String (hex (nat_of_ascii c / 16))
                         (String (hex (nat_of_ascii c)) (QueryEscape s')))
  end.

(** [url.QueryUnescape]; [None] for a malformed escape *)
Fixpoint QueryUnescape (s : string) : option string :=
  match s with
  | EmptyString => Some EmptyString
  | String c s' =>
      if Ascii.eqb c "%" then
        match s' with
        | String a (String b rest) =>
            match unhex a, unhex b with
            | Some x, Some y =>
                String (ascii_of_nat (16 * x + y)) <$> QueryUnescape rest
            | _, _ => None
            end
        | _ => None
        end
      else String (if Ascii.eqb c "+" then " "%char else c) <$> QueryUnescape s'
  end.

(** [strings.Split(s, sep)] for a one-byte separator *)
Fixpoint Split (sep : ascii) (s : string) : list string :=
  match s with
  | EmptyString => [EmptyString]
  | String c s' =>
      if Ascii.eqb c sep then EmptyString :: Split sep s'
      else match Split sep s' with
           | first :: others => String c first :: others
           | [] => [String c EmptyString]
           end
  end.

(** [url.ParseQuery], its error dropped as [(u *URL) Query()] does *)
Definition ParseQuery (query : string) : Values :=
  fold_left
    (fun m pair =>
       if one_of pair ";" || negb (nonempty pair) then m
       else let (key, value) := Cut "=" pair in
            match QueryUnescape key, QueryUnescape value with
            | Some k, Some v => Values_Add k v m
            | _, _ => m
            end)
    (Split "&" query) ∅.

Fixpoint insert_sorted (k : string) (keys : list string) : list string :=
  match keys with
  | [] => [k]
  | k' :: rest =>
      if String.leb k k' then k :: keys else k' :: insert_sorted k rest
  end.

(** [url.Values.Encode]: sorted by key *)
Definition Encode (v : Values) : string :=
  let keys := foldr insert_sorted [] (map fst (map_to_list v)) in
  String.concat "&"
    (flat_map (fun k => map (fun x => QueryEscape k +:+ "=" +:+ QueryEscape x)
                            (default [] (v !! k))) keys).

(** *** [base64.StdEncoding.EncodeToString] *)

Definition alphabet : string :=
  "ABCDEFGHIJKLMNOPQRSTUVWXYZabcdefghijklmnopqrstuvwxyz0123456789+/".
Definition sextet (n : nat) : ascii :=
  default "="%char (String.get (n mod 64) alphabet).

Fixpoint EncodeToString (src : string) : string :=
  match src with
  | EmptyString => EmptyString
  | String a EmptyString =>
      let x := nat_of_ascii a in
      String (sextet (x / 4)) (String (sextet (x mod 4 * 16)) "==")
  | String a (String b EmptyString) =>
      let x := nat_of_ascii a in
      let y := nat_of_ascii b in
      String (sextet (x / 4))
        (String (sextet (x mod 4 * 16 + y / 16))
           (String (sextet (y mod 16 * 4)) "="))
  | String a (String b (String c rest)) =>
      let x := nat_of_ascii a in
      let y := nat_of_ascii b in
      let z := nat_of_ascii c in
      String (sextet (x / 4))
        (String (sextet (x mod 4 * 16 + y / 16))
           (String (sextet (y mod 16 * 4 + z / 64))
              (String (sextet z) (EncodeToString rest))))
  end.

(** *** JSON values: numbers, plain strings, and a channel, which
    [encoding/json] refuses to marshal *)

Inductive value : Type :=
| VNumber (n : Z)
| VString (s : string)
| VChan.

Definition Marshal (v : value) : string + string :=
  match v with
  | VNumber n => inl (fmt.d n)
  | VString s => inl (Quote s)
  | VChan => inr "json: unsupported type: chan int"
  end.

Fixpoint span_of (p : ascii -> bool) (s : string) : string * string :=
  match s with
  | EmptyString => (EmptyString, EmptyString)
  | String c s' =>
      if p c then let (taken, rest) := span_of p s' in (String c taken, rest)
      else (EmptyString, s)
  end.

(** [(dec *json.Decoder) Decode]: the value at the head of the stream
    and the bytes after it *)
Definition Decode (content : string) : (value + string) * string :=
  match content with
  | EmptyString => (inr "EOF", EmptyString)
  | String c rest =>
      if textproto.is_digit c then
        let (digits, after) := span_of textproto.is_digit content in
        (inl (VNumber (default 0 (Z.of_int <$> NilZero.int_of_string digits))),
         after)
      else if one_of multipart.quote c then
        let (text, after) := Cut (ascii_of_nat 34) rest in
        (inl (VString text), after)
      else (inr ("invalid character '" +:+ String c EmptyString
                   +:+ "' looking for beginning of value"), rest)
  end.

(** *** [http.NewRequest] and a transport

    The transport answers like the handler of the repository's tests:
    it echoes [X-Some-Header], answers 400 when the query has a [bad]
    parameter, and serves [Hello, world!]; [/json] serves a JSON
    number and [/missing] is not found.  The host [nohost] cannot be
    reached. *)

Definition NewRequest (method url : string) : option string :=
  if nonempty method && negb (all textproto.validHeaderFieldByte method)
  then Some ("net/http: invalid method " +:+ Quote method)
  else match Parse url with
       | inr text => Some text
       | inl _ => None
       end.

Definition TestString : string := "Hello, world!".

(** [url.Values.Get(key)] *)
Definition Values_Get (v : Values) (key : string) : string :=
  match v !! key with
  | Some (x :: _) => x
  | _ => EmptyString
  end.

Definition serve (status : Z) (content_type body : string) (echo : list string) : http_Response :=
  {| StatusCode := status;
     Header := <["Content-Type" := [content_type]]>
               (match echo with
                | [] => ∅
                | _ => {["X-Some-Header" := echo]}
                end);
     Body := Some {| unread := body; closes := 0; closer := true |};
     ContentLength := Z.of_nat (String.length body) |}.

Definition Do (call : Call) : option http_Response * option string :=
  match Parse (call_url call) with
  | inr text => (None, Some text)
  | inl u =>
      if String.eqb (Host u) "nohost"
      then (None, Some (call_method call +:+ " " +:+ Quote (call_url call)
                          +:+ ": dial tcp: lookup nohost: no such host"))
      else
        let echo := match call_headers call !! "X-Some-Header" with
                    | Some token => [token]
                    | None => []
                    end in
        let text := "text/plain; charset=utf-8" in
        if String.eqb (Path u) "/json"
        then (Some (serve 200 "application/json; charset=utf-8" "42" echo), None)
        else if String.eqb (Path u) "/missing"
        then (Some (serve 404 text "404 page not found" echo), None)
        else if nonempty (Values_Get (ParseQuery (RawQuery u)) "bad")
        then (Some (serve 400 text TestString echo), None)
        else (Some (serve 200 text TestString echo), None)
  end.

Definition env : Env :=
  {| JSONValue := value;
     url_Parse := Parse;
     url_String := String_;
     url_ParseQuery := ParseQuery;
     url_Encode := Encode;
     base64_EncodeToString := EncodeToString;
     json_Marshal := Marshal;
     json_Decode := Decode;
     json_Indent := fun src => src;
     http_NewRequest := NewRequest;
     client_Do := Do;
     strconv_Quote := Quote |}.

End Ref.

(** ** Sample data and observations *)

(** The target, method, headers, body and failure of two requests agree. *)
Definition frozen (r r' : Request) : Prop :=
  URL_ r' = URL_ r /\ method r' = method r /\ headers r' = headers r /\
  data r' = data r /\ err r' = err r.

(** The operations that read the body to its end. *)
Definition reads_body (o : ResponseOp) : bool :=
  match o with
  | OpGetBody | OpGetJSON => true
  | _ => false
  end.

(** How many times the body of a response was closed. *)
Definition closes_of (p : Response) : option nat :=
  h ← Response_ p; s ← Body h; Some (closes s).

(** A response as the transport of [Ref] serves it, on a request that
    has not failed. *)
Definition served (status : Z) (content_type : string) : Response :=
  {| Response_ := Some (Ref.serve status content_type Ref.TestString []);
     req := Get Ref.env "http://x/a" |}.

(** A form whose file could not be encoded: the error of
    [AddFile("file", "a.json", make(chan int), JSONEncode)]. *)
Definition broken_form : Form :=
  {| Buffer := Some "--b0undary";
     Writer := "b0undary";
     Err := Some (errorString "json: unsupported type: chan int") |}.

(** The error of a request built on the path [:id]. *)
Definition no_scheme_error : error :=
  errorString ("error parsing url " +:+ Ref.Quote ":id" +:+ ": parse "
                 +:+ Ref.Quote ":id" +:+ ": missing protocol scheme").

(** The value of a call that did not panic. *)
Definition unwrap {A : Type} (d : A) (m : Res A) : A :=
  match m with
  | Ok a => a
  | Panic _ => d
  end.

Definition zero_request : Request :=
  {| URL_ := None; method := EmptyString; data := None; headers := None;
     err := None; span := false |}.
Definition zero_response : Response :=
  {| Response_ := None; req := zero_request |}.

(** A chain that fails while the request is built: the JSON body is a
    channel. *)
Definition failing_build : list (RequestOp Ref.value) :=
  [OpParam "id" "42"; OpJSONBody Ref.VChan].
Definition after_failing_build : Request :=
  Eval vm_compute in
    unwrap zero_request (build Ref.env failing_build (Post Ref.env "http://x/:id")).

(** A chain that fails while the response is inspected: the server
    answers 404. *)
Definition built_missing : Request :=
  Eval vm_compute in
    unwrap zero_request
      (build Ref.env [OpHeader "X-Some-Header" "t"] (Get Ref.env "http://x/missing")).
Definition sent_missing : Response * list Call :=
  Eval vm_compute in unwrap (zero_response, []) (Send Ref.env built_missing).
Definition inspected_missing : Response :=
  Eval vm_compute in
    fst (unwrap (zero_response, [])
           (inspect Ref.env [OpExpectSuccess] (fst sent_missing))).

(** The URLs [http://x/a], [http://x/:id] and [http://x/42]. *)
Definition sample_url : URL :=
  mkURL "http" EmptyString "x" "/a" false false EmptyString EmptyString.
Definition sample_url_id : URL :=
  mkURL "http" EmptyString "x" "/:id" false false EmptyString EmptyString.
Definition sample_url_42 : URL :=
  mkURL "http" EmptyString "x" "/42" false false EmptyString EmptyString.

(** What [url.Parse] answers to the path [:id]. *)
Definition no_scheme : string :=
  "parse " +:+ Ref.Quote ":id" +:+ ": missing protocol scheme".

(** ** Frames and complete requests *)

(** Everything but the failure of two requests agrees. *)
Definition same_but_err (r r' : Request) : Prop :=
  URL_ r' = URL_ r /\ method r' = method r /\ headers r' = headers r /\
  data r' = data r /\ span r' = span r.

(** The status, headers and content length of two responses agree. *)
Definition same_answer (p p' : Response) : Prop :=
  StatusCode <$> Response_ p' = StatusCode <$> Response_ p /\
  Header <$> Response_ p' = Header <$> Response_ p /\
  ContentLength <$> Response_ p' = ContentLength <$> Response_ p.




(** ** Requests chained through continuations *)

(** One request of a sequence: [.Next().New(method, path)], its builder
    operations, [Send] and its response operations. *)
Record Link (V : Type) : Type := mkLink {
  link_method : string;
  link_path : string;
  link_build : list (RequestOp V);
  link_inspect : list ResponseOp
}.
Arguments mkLink {V} link_method link_path link_build link_inspect.
Arguments link_method {V} l.
Arguments link_path {V} l.
Arguments link_build {V} l.
Arguments link_inspect {V} l.

(** The requests of [links] run one after the other, each started from
    the continuation of the one before; the result is what the last
    [Done] returns and all the calls made to the transport. *)
Fixpoint follow (E : Env) (n : Next) (links : list (Link (JSONValue E)))
    : Res (option error * list Call) :=
  match links with
  | [] => Ok (next_err n, [])
  | l :: links' =>
      out ← chain E (link_build l) (link_inspect l)
                  (Next_New E n (link_method l) (link_path l));
      '(e, calls) ← follow E (Response_Next (final out)) links';
      Ok (e, wire out ++ calls)
  end.

(** ** The second revision's chain of response operations

    [Proxy], the expectations and [GetHeader] read in the second
    revision as in the first; it has no [PrintJSON]. *)

Inductive ResponseOp2 : Type :=
| Op2Proxy (w : Writer_t)
| Op2ExpectSuccess
| Op2ExpectStatusCode (code : Z)
| Op2ExpectHeader (key value : string)
| Op2ExpectType (value : string)
| Op2GetHeader (key : string)
| Op2GetBody
| Op2GetJSON.

Definition apply_response_op2 (E : Env) (o : ResponseOp2) (r : Response) : Step E :=
  match o with
  | Op2Proxy w => Proxy E w r
  | Op2ExpectSuccess => ExpectSuccess E r
  | Op2ExpectStatusCode code => ExpectStatusCode E code r
  | Op2ExpectHeader key value => ExpectHeader E key value r
  | Op2ExpectType value => ExpectType E value r
  | Op2GetHeader key => GetHeader E key r
  | Op2GetBody => SecondRevision.GetBody E r
  | Op2GetJSON => SecondRevision.GetJSON E r
  end.

Fixpoint inspect2 (E : Env) (ops : list ResponseOp2) (r : Response) : Step E :=
  match ops with
  | [] => Ok (r, [])
  | o :: ops' =>
      '(r1, out1) ← apply_response_op2 E o r;
      '(r2, out2) ← inspect2 E ops' r1;
      Ok (r2, out1 ++ out2)
  end.

(** The response operations followed by the second revision's [Done]. *)
Definition finish2 (E : Env) (ops : list ResponseOp2) (r : Response)
    : Res (Response * option error) :=
  '(r1, _) ← inspect2 E ops r;
  SecondRevision.Done r1.

(** ** Multipart forms ([questmultipart/multipart.go])

    [mime/multipart] is a collaborator: [MW] is the state of the buffer
    and of the writer on it, which [Buffer] and [Writer] of a form both
    point into.  A failing call yields the text of its error. *)

(** The form of the request builder, under a name that stays free
    inside [questmultipart]. *)
Abbreviation request_form := Form.

Module questmultipart.

Record Multipart : Type := mkMultipart {
  MW : Type;
  NewWriter : MW;
  Bytes : MW -> string;
  Boundary : MW -> string;
  CreateFormFile : string -> string -> MW -> MW * option string;
  WriteField : string -> string -> MW -> MW * option string;
  Writer_Close : MW -> MW * option string;
  part_Write : string -> MW -> MW * option string
}.


(** [Form]; [W] is the state of its buffer and writer. *)
Record Form (W : Type) : Type := mkForm {
  writer : W;
  Err : option error
}.
Arguments mkForm {W} writer Err.
Arguments writer {W} f.
Arguments Err {W} f.

(** [Encoder]: a function of the part's writer and the value; it may
    panic. *)
Definition Encoder (W V : Type) : Type := W -> V -> Res (W * option string).

(** The operations on a form *)
Inductive FormOp (W V : Type) : Type :=
| OpAddFile (fieldName fileName : string) (value : V) (encoder : Encoder W V)
| OpAddField (name value : string)
| OpClose.
Arguments OpAddFile {W V} fieldName fileName value encoder.
Arguments OpAddField {W V} name value.
Arguments OpClose {W V}.

(** The same writer with no error recorded. *)
Definition clean {W : Type} (f : Form W) : Form W :=
  {| writer := writer f; Err := None |}.

(** The writer of [c] with the error of [c] or, when [c] has none, the
    error of [f]. *)
Definition later {W : Type} (c f : Form W) : Form W :=
  {| writer := writer c;
     Err := match Err c with
            | Some e => Some e
            | None => Err f
            end |}.

Section Forms.

Variable M : Multipart.

(** [New()] *)
Definition New : Form (MW M) := {| writer := NewWriter M; Err := None |}.

(** [AddFile(fieldName, fileName, value, encoder)] *)
Definition AddFile {V : Type} (fieldName fileName : string) (value : V)
    (encoder : Encoder (MW M) V) (f : Form (MW M)) : Res (Form (MW M)) :=
  match CreateFormFile M fieldName fileName (writer f) with
  | (w1, Some text) => Ok {| writer := w1; Err := Some (errorString text) |}
  | (w1, None) =>
      '(w2, failure) ← encoder w1 value;
      match failure with
      | Some text => Ok {| writer := w2; Err := Some (errorString text) |}
      | None => Ok {| writer := w2; Err := Err f |}
      end
  end.

(** [AddField(name, value)] *)
Definition AddField (name value : string) (f : Form (MW M)) : Form (MW M) :=
  match WriteField M name value (writer f) with
  | (w1, Some text) => {| writer := w1; Err := Some (errorString text) |}
  | (w1, None) => {| writer := w1; Err := Err f |}
  end.

(** [Close()] *)
Definition Close (f : Form (MW M)) : Form (MW M) :=
  match Writer_Close M (writer f) with
  | (w1, Some text) => {| writer := w1; Err := Some (errorString text) |}
  | (w1, None) => {| writer := w1; Err := Err f |}
  end.

(** [XMLEncode]: the XML declaration and a newline, the error of that
    write dropped, then the encoder of [encoding/xml]. *)
Definition XMLEncode {V : Type} (xml_Header : string)
    (xml_Encode : Encoder (MW M) V) : Encoder (MW M) V :=
  fun w data =>
    let (w1, _) := part_Write M (xml_Header +:+ newline) w in
    xml_Encode w1 data.

(** [JSONEncode]: [Encode] of a JSON encoder writes the encoding and a
    newline, or nothing when the value cannot be marshalled. *)
Definition JSONEncode (E : Env) : Encoder (MW M) (JSONValue E) :=
  fun w data =>
    match json_Marshal E data with
    | inr text => Ok (w, Some text)
    | inl b => Ok (part_Write M (b +:+ newline) w)
    end.

(** [CopyEncode]: [io.Copy] from the value, which must be a reader; a
    reader is the bytes it yields and the error it ends with, any other
    value is [None]. *)
Definition CopyEncode : Encoder (MW M) (option (string * option string)) :=
  fun w data =>
    match data with
    | None => Panic "interface conversion: interface {} is not io.Reader"
    | Some (content, read_error) =>
        match part_Write M content w with
        | (w1, Some text) => Ok (w1, Some text)
        | (w1, None) => Ok (w1, read_error)
        end
    end.

Definition apply_form_op {V : Type} (o : FormOp (MW M) V) (f : Form (MW M))
    : Res (Form (MW M)) :=
  match o with
  | OpAddFile fieldName fileName value encoder =>
      AddFile fieldName fileName value encoder f
  | OpAddField name value => Ok (AddField name value f)
  | OpClose => Ok (Close f)
  end.

Fixpoint fill {V : Type} (ops : list (FormOp (MW M) V)) (f : Form (MW M))
    : Res (Form (MW M)) :=
  match ops with
  | [] => Ok f
  | o :: ops' => f1 ← apply_form_op o f; fill ops' f1
  end.


End Forms.

End questmultipart.
(** A reference [mime/multipart] writer on a [bytes.Buffer]: the bytes
    written so far, the boundary, and whether a part is open.  Writes to
    a buffer do not fail.  Field and file names are escaped as
    [escapeQuotes] does. *)

Module RefMultipart.

Record state : Type := mkState {
  out : string;
  boundary : string;
  lastpart : bool
}.

Definition crlf : string := String (ascii_of_nat 13) (String (ascii_of_nat 10) EmptyString).

(** [escapeQuotes]: a backslash before every backslash and quote *)
Definition escapeQuotes (s : string) : string := Ref.quote_body s.

(** [CreatePart]: the boundary line, the header lines, an empty line *)
Definition CreatePart (header : string) (w : state) : state :=
  {| out := out w
            +:+ (if lastpart w then crlf else EmptyString)
            +:+ "--" +:+ boundary w +:+ crlf +:+ header +:+ crlf;
     boundary := boundary w;
     lastpart := true |}.

Definition write (bytes : string) (w : state) : state :=
  {| out := out w +:+ bytes; boundary := boundary w; lastpart := lastpart w |}.

Definition CreateFormFile (fieldname filename : string) (w : state) : state :=
  CreatePart ("Content-Disposition: form-data; name=" +:+ multipart.quote
                +:+ escapeQuotes fieldname +:+ multipart.quote
                +:+ "; filename=" +:+ multipart.quote
                +:+ escapeQuotes filename +:+ multipart.quote +:+ crlf
                +:+ "Content-Type: application/octet-stream" +:+ crlf) w.

Definition WriteField (fieldname value : string) (w : state) : state :=
  write value
    (CreatePart ("Content-Disposition: form-data; name=" +:+ multipart.quote
                   +:+ escapeQuotes fieldname +:+ multipart.quote +:+ crlf) w).

Definition Close (w : state) : state :=
  {| out := out w +:+ crlf +:+ "--" +:+ boundary w +:+ "--" +:+ crlf;
     boundary := boundary w;
     lastpart := false |}.

(** The writer that [multipart.NewWriter] returned with the boundary
    [b0undary]. *)
Definition ops : questmultipart.Multipart :=
  {| questmultipart.MW := state;
     questmultipart.NewWriter :=
       {| out := EmptyString; boundary := "b0undary"; lastpart := false |};
     questmultipart.Bytes := out;
     questmultipart.Boundary := boundary;
     questmultipart.CreateFormFile := fun field file w =>
       (CreateFormFile field file w, None);
     questmultipart.WriteField := fun field value w =>
       (WriteField field value w, None);
     questmultipart.Writer_Close := fun w => (Close w, None);
     questmultipart.part_Write := fun bytes w => (write bytes w, None) |}.

End RefMultipart.

(** Two files that cannot be encoded, between fields that can. *)
Definition sample_form_ops : list (questmultipart.FormOp RefMultipart.state Ref.value) :=
  [questmultipart.OpAddField "a" "1";
   questmultipart.OpAddFile "file" "a.json" Ref.VChan
     (questmultipart.JSONEncode RefMultipart.ops Ref.env);
   questmultipart.OpAddField "b" "2"].

(** ** Rendering errors ([quest.go], lines 394-477)

    [encoding/json] is a collaborator: [MarshalIndent] of a
    [requestJSON] and of a [responseJSON], and the compaction and
    indentation that [json.MarshalIndent] applies to the output of a
    [MarshalJSON] method. *)

Record Renderer : Type := mkRenderer {
  MarshalIndent_request :
    option URL -> string -> string -> option (gmap string string)
    -> string + string;
  MarshalIndent_response : Z -> Header_t -> string -> Z -> string + string;
  Reindent : string -> string
}.

Section Rendering.

Variable D : Renderer.

(** [(r *Request) MarshalJSON()]; [r.data.Bytes()] faults on a nil
    buffer. *)
Definition Request_MarshalJSON (r : Request) : Res (string + string) :=
  match data r with
  | None => Panic nil_deref
  | Some d => Ok (MarshalIndent_request D (URL_ r) (method r) d (headers r))
  end.

(** [(r *Request) format()]: the error of [json.MarshalIndent] is
    dropped and leaves the empty string. *)
Definition Request_format (r : Request) : Res string :=
  m ← Request_MarshalJSON r;
  Ok match m with
     | inl b => Reindent D b
     | inr _ => EmptyString
     end.

(** [(r *Response) MarshalJSON()]: the body is read to its end and not
    put back. *)
Definition Response_MarshalJSON (p : Response) : Res ((string + string) * Response) :=
  match Response_ p with
  | None => Panic nil_deref
  | Some h =>
      match Body h with
      | None => Panic nil_deref
      | Some s =>
          let (body, s1) := read_all s in
          Ok (MarshalIndent_response D (StatusCode h) (Header h) body
                (ContentLength h),
              with_Body s1 h p)
      end
  end.

(** [(r *Response) format()] *)
Definition Response_format (p : Response) : Res (string * Response) :=
  '(m, p1) ← Response_MarshalJSON p;
  Ok (match m with
      | inl b => Reindent D b
      | inr _ => EmptyString
      end, p1).

(** [(e requestError) Error()], for the request [e.Request] points to *)
Definition requestError_Error (message : string) (r : Request) : Res string :=
  f ← Request_format r;
  Ok ("[Quest]: Request Error - " +:+ message +:+ newline +:+ newline
        +:+ "Request Info:" +:+ newline +:+ " " +:+ f).

(** [(e responseError) Error()], for the response [e.Response] points
    to, whose request is the one [e.Request] points to *)
Definition responseError_Error (message : string) (p : Response)
    : Res (string * Response) :=
  f ← Request_format (req p);
  '(g, p1) ← Response_format p;
  Ok ("[Quest]: Request Error - " +:+ message +:+ newline +:+ newline
        +:+ "Request Info:" +:+ newline +:+ " " +:+ f +:+ newline +:+ newline
        +:+ "Response Info:" +:+ newline +:+ " " +:+ g, p1).

End Rendering.

(** A stand-in for the JSON renderer: the fields on one line. *)
Definition plain_renderer : Renderer :=
  {| MarshalIndent_request := fun u method d h =>
       inl (method +:+ " "
              +:+ match u with
                  | Some u => Ref.String_ u
                  | None => "null"
                  end
              +:+ " " +:+ d);
     MarshalIndent_response := fun status header body length =>
       inl (fmt.d status +:+ " " +:+ body);
     Reindent := fun b => b |}.

(** ** More sample data *)

(** The headers [New] starts every request with. *)
Definition default_headers : gmap string string :=
  <["Accept" := "application/json"]> (<["User-Agent" := "quest/v1"]> ∅).

(** The URL [http://x/a?k=0]. *)
Definition sample_url_query : URL :=
  mkURL "http" EmptyString "x" "/a" false false "k=0" EmptyString.

(** The answer of the reference transport on [/missing] and on any
    other path, and the stream of the latter. *)
Definition answer_missing : http_Response :=
  Ref.serve 404 "text/plain; charset=utf-8" "404 page not found" ["t"].
Definition answer_hello : http_Response :=
  Ref.serve 200 "text/plain" Ref.TestString [].
Definition stream_hello : Stream :=
  {| unread := Ref.TestString; closes := 0; closer := true |}.

(** A chain that fails at [ExpectSuccess], run to its end. *)
Definition outcome_missing : Outcome Ref.value :=
  Eval vm_compute in
    unwrap (mkOutcome zero_response None [] [])
      (chain Ref.env [OpHeader "X-Some-Header" "t"]
             [OpExpectSuccess; OpGetBody] (Get Ref.env "http://x/missing")).


(** The form of [sample_form_ops], filled from [New()]. *)
Definition sample_form : questmultipart.Form RefMultipart.state :=
  Eval vm_compute in
    unwrap (questmultipart.New RefMultipart.ops)
      (questmultipart.fill RefMultipart.ops sample_form_ops
         (questmultipart.New RefMultipart.ops)).

(** Three requests, the second on a path that does not parse. *)
Definition sample_links : list (Link Ref.value) :=
  [mkLink "GET" "http://x/a" [OpHeader "A" "b"] [OpExpectSuccess];
   mkLink "POST" "http://x/b" [] [OpGetBody]].

(** * Properties *)

(** ** The standard library functions on sample inputs *)

Example fmt_d_404 : fmt.d 404 = "404".
Proof. reflexivity. Qed.

Example fmt_d_neg : fmt.d (-7) = "-7".
Proof. reflexivity. Qed.

Example fmt_d_zero : fmt.d 0 = "0".
Proof. reflexivity. Qed.

Example Replace1_first_only :
  strings.Replace1 "/:id/:id" ":id" "42" = "/42/:id".
Proof. reflexivity. Qed.

Example Replace1_absent : strings.Replace1 "/users" ":id" "42" = "/users".
Proof. reflexivity. Qed.

Example canonical_content_type :
  textproto.CanonicalMIMEHeaderKey "content-type" = "Content-Type".
Proof. reflexivity. Qed.

Example canonical_fixed_point :
  textproto.CanonicalMIMEHeaderKey "Content-Type" = "Content-Type".
Proof. reflexivity. Qed.

(** ** Strings *)

Lemma append_nil (s : string) : EmptyString +:+ s = s.
Proof. reflexivity. Qed.

Lemma append_cons (c : ascii) (a s : string) :
  String c a +:+ s = String c (a +:+ s).
Proof. reflexivity. Qed.

Lemma append_assoc (a b c : string) : (a +:+ b) +:+ c = a +:+ b +:+ c.
Proof.
  induction a as [|x a IH]; [reflexivity|].
  rewrite !append_cons. now rewrite IH.
Qed.

Lemma HasPrefix_app (p s : string) : strings.HasPrefix (p +:+ s) p = true.
Proof.
  induction p as [|c p IH]; [reflexivity|].
  rewrite append_cons. simpl. now rewrite Ascii.eqb_refl.
Qed.

Lemma Contains_unfold (s sub : string) :
  strings.Contains s sub =
  strings.HasPrefix s sub ||
  match s with
  | EmptyString => false
  | String _ s' => strings.Contains s' sub
  end.
Proof. destruct s; reflexivity. Qed.

Lemma Contains_app (a s b : string) :
  strings.Contains (a +:+ s +:+ b) s = true.
Proof.
  induction a as [|c a IH].
  - rewrite append_nil, Contains_unfold, HasPrefix_app. reflexivity.
  - rewrite append_cons, Contains_unfold, IH. apply orb_true_r.
Qed.

Lemma Contains_app_second (a x b y c : string) :
  strings.Contains (a +:+ x +:+ b +:+ y +:+ c) y = true.
Proof.
  replace (a +:+ x +:+ b +:+ y +:+ c) with ((a +:+ x +:+ b) +:+ y +:+ c)
    by (rewrite !append_assoc; reflexivity).
  apply Contains_app.
Qed.

Lemma Contains_false_HasPrefix (s sub : string) :
  strings.Contains s sub = false -> strings.HasPrefix s sub = false.
Proof.
  rewrite Contains_unfold. intros H. now apply orb_false_elim in H.
Qed.

Lemma Replace1_no_match (s old new : string) :
  strings.Contains s old = false -> strings.Replace1 s old new = s.
Proof.
  induction s as [|c s IH]; intros H.
  - simpl in *. destruct old; [discriminate | reflexivity].
  - pose proof (Contains_false_HasPrefix _ _ H) as Hp.
    rewrite Contains_unfold in H. apply orb_false_elim in H as [_ H].
    cbn [strings.Replace1]. rewrite Hp. f_equal. now apply IH.
Qed.

(** [Replace1] rewrites the instance that [strings.Index] finds. *)
Lemma Replace1_Index (s old new : string) :
  strings.Replace1 s old new =
  match strings.Index s old with
  | Some i =>
      String.substring 0 i s +:+ new +:+ strings.drop (i + String.length old) s
  | None => s
  end.
Proof.
  induction s as [|c s IH]; cbn [strings.Replace1 strings.Index].
  - destruct (strings.HasPrefix EmptyString old); reflexivity.
  - destruct (strings.HasPrefix (String c s) old); [reflexivity|].
    rewrite IH. destruct (strings.Index s old) as [i|]; reflexivity.
Qed.

(** ** Expectations on the response *)

Section Expectations.

Variable E : Env.

(** C9. On a response whose request has not failed, [ExpectSuccess]
    records a failure exactly when the status code lies outside the
    half-open interval from 200 to 300; for a status inside it the
    response comes back unchanged. *)
Theorem ExpectSuccess_range (r : Response) (h : http_Response) :
  err (req r) = None ->
  Response_ r = Some h ->
  exists r',
    ExpectSuccess E r = Ok (r', []) /\
    (is_Some (err (req r')) <-> ~ (200 <= StatusCode h < 300)) /\
    (200 <= StatusCode h < 300 -> r' = r).
Proof.
  intros Herr Hh. unfold ExpectSuccess. rewrite Herr, Hh.
  destruct ((StatusCode h <? 200) || (StatusCode h >=? 300)) eqn:Hout.
  - eexists; split; [reflexivity|]. split.
    + split; [|intros _; simpl; eauto].
      intros _. apply orb_true_iff in Hout as [H|H]; lia.
    + intros Hin. apply orb_true_iff in Hout as [H|H]; lia.
  - exists r; split; [reflexivity|]. apply orb_false_elim in Hout as [H1 H2].
    split; [|reflexivity]. rewrite Herr. split.
    + intros [x Hx]; discriminate.
    + intros Hn. exfalso. apply Hn. lia.
Qed.

(** C8. On a response whose request has not failed,
    [ExpectStatusCode code] records a failure exactly when the status
    code differs from [code], and the message of the recorded response
    error contains the decimal renderings of the expected and of the
    actual status code. *)
Theorem ExpectStatusCode_message (code : Z) (r : Response) (h : http_Response) :
  err (req r) = None ->
  Response_ r = Some h ->
  exists r',
    ExpectStatusCode E code r = Ok (r', []) /\
    (is_Some (err (req r')) <-> StatusCode h <> code) /\
    (StatusCode h = code -> r' = r) /\
    (StatusCode h <> code ->
     exists message,
       err (req r') = Some (responseError message) /\
       strings.Contains message (fmt.d code) = true /\
       strings.Contains message (fmt.d (StatusCode h)) = true).
Proof.
  intros Herr Hh. unfold ExpectStatusCode. rewrite Herr, Hh.
  destruct (StatusCode h =? code) eqn:Heq; simpl.
  - apply Z.eqb_eq in Heq. exists r. split; [reflexivity|].
    rewrite Herr. repeat split; try congruence.
    intros [x Hx]; discriminate.
  - apply Z.eqb_neq in Heq. eexists; split; [reflexivity|].
    repeat split; simpl; eauto; try congruence.
    intros _. eexists; split; [reflexivity|]. split.
    + apply Contains_app.
    + apply Contains_app_second.
Qed.

(** The alias table of [ExpectType]. *)
Lemma types_table :
  types !! "html" = Some "text/html" /\
  types !! "json" = Some "application/json" /\
  types !! "xml" = Some "application/xml" /\
  types !! "text" = Some "text/plain" /\
  types !! "urlencoded" = Some "application/x-www-form-urlencoded" /\
  types !! "form" = Some "application/x-www-form-urlencoded" /\
  types !! "form-data" = Some "application/x-www-form-urlencoded".
Proof. repeat split; reflexivity. Qed.

Lemma types_other (value : string) :
  value ∉ ["html"; "json"; "xml"; "text"; "urlencoded"; "form"; "form-data"] ->
  types !! value = None.
Proof.
  intros Hnot. unfold types.
  rewrite !lookup_insert_ne by (intros <-; apply Hnot; set_solver).
  apply lookup_empty.
Qed.

(** C7. On a response whose request has not failed, [ExpectType]
    resolves its argument through the alias table (any value outside
    the table stands for itself), delegates to [ExpectHeader] on
    [Content-Type], and succeeds exactly when the response's
    [Content-Type] header contains the resolved value as a substring. *)
Theorem ExpectType_alias (value : string) (r : Response) (h : http_Response) :
  err (req r) = None ->
  Response_ r = Some h ->
  let typeValue := default value (types !! value) in
  (value = "html" -> typeValue = "text/html") /\
  (value = "json" -> typeValue = "application/json") /\
  (value = "xml" -> typeValue = "application/xml") /\
  (value = "text" -> typeValue = "text/plain") /\
  (value ∈ ["urlencoded"; "form"; "form-data"] ->
   typeValue = "application/x-www-form-urlencoded") /\
  (value ∉ ["html"; "json"; "xml"; "text"; "urlencoded"; "form"; "form-data"] ->
   typeValue = value) /\
  ExpectType E value r = ExpectHeader E "Content-Type" typeValue r /\
  exists r',
    ExpectType E value r = Ok (r', []) /\
    (err (req r') = None <->
     strings.Contains (Header_Get (Header h) "Content-Type") typeValue = true) /\
    (err (req r') = None -> r' = r).
Proof.
  intros Herr Hh typeValue.
  repeat match goal with |- (_ = _ -> _) /\ _ =>
    split; [intros ->; reflexivity|] end.
  split.
  { intros Hin. subst typeValue.
    repeat (apply elem_of_cons in Hin as [->|Hin]; [reflexivity|]).
    now apply elem_of_nil in Hin. }
  split.
  { intros Hout. subst typeValue. now rewrite types_other. }
  assert (Hdef : ExpectType E value r = ExpectHeader E "Content-Type" typeValue r).
  { unfold ExpectType. rewrite Herr. subst typeValue.
    destruct (types !! value); reflexivity. }
  split; [exact Hdef|]. rewrite Hdef. unfold ExpectHeader. rewrite Herr, Hh.
  destruct (strings.Contains (Header_Get (Header h) "Content-Type") typeValue)
    eqn:Hc; simpl.
  - exists r. rewrite Herr. repeat split; congruence.
  - eexists. split; [reflexivity|]. simpl. repeat split; congruence.
Qed.

End Expectations.

(** ** Short-circuit on a recorded failure *)

Lemma frozen_refl (r : Request) : frozen r r.
Proof. repeat split. Qed.

Lemma frozen_trans (r1 r2 r3 : Request) :
  frozen r1 r2 -> frozen r2 r3 -> frozen r1 r3.
Proof.
  intros (A1 & A2 & A3 & A4 & A5) (B1 & B2 & B3 & B4 & B5).
  repeat split; congruence.
Qed.

Section ShortCircuit.

Variable E : Env.

Lemma request_op_failed (o : RequestOp (JSONValue E)) (r : Request) (e : error) :
  err r = Some e ->
  exists r', apply_request_op E o r = Ok r' /\ frozen r r'.
Proof.
  intros He.
  destruct o; simpl;
    unfold StartSpan, Header_set, BasicAuth, QueryParam, Param, Body_set,
      JSONBody, MultipartBody;
    rewrite ?He; eexists; (split; [reflexivity | repeat split]).
Qed.

(** Every builder operation other than [StartSpan] hands back the very
    same request. *)
Lemma request_op_failed_same (o : RequestOp (JSONValue E)) (r : Request) (e : error) :
  err r = Some e -> o <> OpStartSpan -> apply_request_op E o r = Ok r.
Proof.
  intros He Ho.
  destruct o; simpl; try congruence;
    unfold Header_set, BasicAuth, QueryParam, Param, Body_set,
      JSONBody, MultipartBody;
    now rewrite He.
Qed.

Lemma build_failed (ops : list (RequestOp (JSONValue E))) (r : Request) (e : error) :
  err r = Some e ->
  exists r', build E ops r = Ok r' /\ frozen r r'.
Proof.
  revert r. induction ops as [|o ops IH]; intros r He.
  - exists r. split; [reflexivity | apply frozen_refl].
  - destruct (request_op_failed o r e He) as (r1 & H1 & F1).
    assert (He1 : err r1 = Some e) by (destruct F1 as (_ & _ & _ & _ & ->); exact He).
    destruct (IH r1 He1) as (r2 & H2 & F2).
    exists r2. split; [|eapply frozen_trans; eauto].
    simpl. rewrite H1. exact H2.
Qed.

Lemma Send_failed (r : Request) (e : error) :
  err r = Some e ->
  Send E r = Ok ({| Response_ := Some http_Response_zero; req := r |}, []).
Proof. intros He. unfold Send. now rewrite He. Qed.

Lemma response_op_failed (o : ResponseOp) (p : Response) (e : error) :
  err (req p) = Some e -> apply_response_op E o p = Ok (p, []).
Proof.
  intros He.
  destruct o; simpl;
    unfold Proxy, ExpectSuccess, ExpectStatusCode, ExpectHeader, ExpectType,
      GetHeader, PrintJSON, GetBody, GetJSON;
    now rewrite He.
Qed.

Lemma inspect_failed (ops : list ResponseOp) (p : Response) (e : error) :
  err (req p) = Some e -> inspect E ops p = Ok (p, []).
Proof.
  intros He. induction ops as [|o ops IH]; [reflexivity|].
  simpl. rewrite (response_op_failed o p e He). simpl. now rewrite IH.
Qed.

Lemma build_app (pre post : list (RequestOp (JSONValue E))) (r : Request) :
  build E (pre ++ post) r = (r1 ← build E pre r; build E post r1).
Proof.
  revert r. induction pre as [|o pre IH]; intros r; [reflexivity|].
  simpl. destruct (apply_request_op E o r) as [r1|]; [apply IH | reflexivity].
Qed.

Lemma inspect_app (pre post : list ResponseOp) (p : Response) :
  inspect E (pre ++ post) p =
  ('(p1, out1) ← inspect E pre p;
   '(p2, out2) ← inspect E post p1;
   Ok (p2, out1 ++ out2)).
Proof.
  revert p. induction pre as [|o pre IH]; intros p.
  - simpl. destruct (inspect E post p) as [[p2 out2]|]; reflexivity.
  - simpl. destruct (apply_response_op E o p) as [[p1 out1]|]; [|reflexivity].
    simpl. rewrite IH.
    destruct (inspect E pre p1) as [[p2 out2]|]; [|reflexivity].
    simpl. destruct (inspect E post p2) as [[p3 out3]|]; [|reflexivity].
    simpl. now rewrite app_assoc.
Qed.

Lemma chain_failed (bops : list (RequestOp (JSONValue E))) (rops : list ResponseOp)
    (r : Request) (e : error) :
  err r = Some e ->
  exists out,
    chain E bops rops r = Ok out /\ result out = Some e /\
    frozen r (req (final out)) /\ wire out = [] /\ outputs out = [] /\
    Response_ (final out) = Some http_Response_zero.
Proof.
  intros He. destruct (build_failed bops r e He) as (r1 & Hb & F).
  assert (He1 : err r1 = Some e) by (destruct F as (_ & _ & _ & _ & ->); exact He).
  unfold chain. rewrite Hb. simpl. rewrite (Send_failed r1 e He1). simpl.
  rewrite (inspect_failed rops _ e) by exact He1. simpl.
  eexists. split; [reflexivity|]. simpl. unfold Done. simpl. auto.
Qed.

End ShortCircuit.

(** ** The chain invariants *)

Lemma New_failed (E : Env) (method path text : string) :
  url_Parse E path = inr text ->
  New E method path =
  {| URL_ := None; method := EmptyString; data := None; headers := None;
     err := Some (errorString ("error parsing url " +:+ strconv_Quote E path
                                 +:+ ": " +:+ text));
     span := false |}.
Proof. intros H. unfold New. now rewrite H. Qed.

Lemma New_parsed (E : Env) (method path : string) (u : URL) :
  url_Parse E path = inl u ->
  New E method path =
  {| URL_ := Some u; method := method; data := Some EmptyString;
     headers := Some (<["Accept" := "application/json"]>
                        (<["User-Agent" := "quest/v1"]> ∅));
     err := None; span := false |}.
Proof. intros H. unfold New. now rewrite H. Qed.

(** C1. Once a failure is recorded, every later builder operation,
    [Send] and every later response operation hand back the object they
    were given, with target, method, headers, body and failure as they
    were, and [Done] returns the first failure recorded, whether it was
    recorded while building or while inspecting the response. *)
Theorem first_failure_is_final (E : Env) :
  (forall (o : RequestOp (JSONValue E)) (r : Request) (e : error),
      err r = Some e ->
      exists r', apply_request_op E o r = Ok r' /\ frozen r r' /\
                 (o <> OpStartSpan -> r' = r)) /\
  (forall (r : Request) (e : error),
      err r = Some e ->
      Send E r = Ok ({| Response_ := Some http_Response_zero; req := r |}, [])) /\
  (forall (o : ResponseOp) (p : Response) (e : error),
      err (req p) = Some e ->
      apply_response_op E o p = Ok (p, []) /\
      next_err (Response_Next p) = Some e /\ Done p = Some e) /\
  (forall (pre post : list (RequestOp (JSONValue E))) (rops : list ResponseOp)
          (r r1 : Request) (e : error),
      build E pre r = Ok r1 ->
      err r1 = Some e ->
      exists out,
        chain E (pre ++ post) rops r = Ok out /\
        result out = Some e /\ frozen r1 (req (final out))) /\
  (forall (bops : list (RequestOp (JSONValue E))) (pre post : list ResponseOp)
          (r r1 : Request) (p p1 : Response) (calls : list Call)
          (outs : list (Output (JSONValue E))) (e : error),
      build E bops r = Ok r1 ->
      Send E r1 = Ok (p, calls) ->
      inspect E pre p = Ok (p1, outs) ->
      err (req p1) = Some e ->
      chain E bops (pre ++ post) r =
      Ok {| final := p1; result := Some e; wire := calls; outputs := outs |}).
Proof.
  repeat split.
  - intros o r e He. destruct (request_op_failed E o r e He) as (r' & H & F).
    exists r'. repeat split; try apply F; try exact H.
    intros Ho. rewrite (request_op_failed_same E o r e He Ho) in H.
    congruence.
  - intros r e. apply Send_failed.
  - eapply response_op_failed; eauto.
  - assumption.
  - assumption.
  - intros pre post rops r r1 e Hb He.
    destruct (chain_failed E post rops r1 e He) as (out & Hc & Hr & F & _).
    exists out. repeat split; try apply F; try exact Hr.
    unfold chain in *. rewrite build_app, Hb. exact Hc.
  - intros bops pre post r r1 p p1 calls outs e Hb Hs Hi He.
    unfold chain. rewrite Hb. simpl. rewrite Hs. simpl.
    rewrite inspect_app, Hi. simpl.
    rewrite (inspect_failed E post p1 e He). simpl.
    unfold Done. rewrite He, app_nil_r. reflexivity.
Qed.

(** C3. [Send] on a request whose failure is set makes no call to the
    transport and returns a response with the zero status and no body
    whose [Done] is that failure; a chain whose construction failed
    makes no call at all. *)
Theorem Send_skips_transport (E : Env) (r : Request) (e : error)
    (method path text : string)
    (bops : list (RequestOp (JSONValue E))) (rops : list ResponseOp) :
  err r = Some e ->
  url_Parse E path = inr text ->
  (exists p,
      Send E r = Ok (p, []) /\
      (exists h, Response_ p = Some h /\ StatusCode h = 0 /\ Body h = None /\
                 Header h = ∅) /\
      req p = r /\ Done p = Some e) /\
  (exists out,
      chain E bops rops (New E method path) = Ok out /\
      wire out = [] /\
      result out = err (New E method path) /\
      is_Some (result out)).
Proof.
  intros He Hparse. split.
  - eexists. split; [apply (Send_failed E r e He)|]. simpl.
    split; [exists http_Response_zero; auto|]. auto.
  - rewrite (New_failed E method path text Hparse).
    match goal with |- context [chain E bops rops ?r0] =>
      destruct (chain_failed E bops rops r0 _ eq_refl)
        as (out & Hc & Hr & _ & Hw & _)
    end.
    exists out. rewrite Hc, Hw, Hr. simpl. eauto.
Qed.

(** C2. A request started through a continuation keeps its own
    construction error when its path does not parse; otherwise it takes
    the failure the continuation carries, and [Done] at the end of the
    new chain returns the failure of the chain that [Next] was called
    on, without a call to the transport. *)
Theorem continuation_imports_failure (E : Env) (n : Next) (method path : string) :
  (forall text, url_Parse E path = inr text ->
                Next_New E n method path = New E method path /\
                is_Some (err (Next_New E n method path))) /\
  (forall u, url_Parse E path = inl u ->
             Next_New E n method path = set_err (next_err n) (New E method path) /\
             err (Next_New E n method path) = next_err n) /\
  (Next_Get E n path = Next_New E n "GET" path /\
   Next_Post E n path = Next_New E n "POST" path /\
   Next_Put E n path = Next_New E n "PUT" path /\
   Next_Delete E n path = Next_New E n "DELETE" path) /\
  (forall (p : Response) (e : error) (u : URL)
          (bops : list (RequestOp (JSONValue E))) (rops : list ResponseOp),
      n = Response_Next p ->
      Done p = Some e ->
      url_Parse E path = inl u ->
      exists out,
        chain E bops rops (Next_New E n method path) = Ok out /\
        result out = Some e /\ wire out = []).
Proof.
  repeat split.
  - unfold Next_New. now rewrite (New_failed E method path text H).
  - unfold Next_New. rewrite (New_failed E method path text H). simpl. eauto.
  - unfold Next_New. now rewrite (New_parsed E method path u H).
  - unfold Next_New. now rewrite (New_parsed E method path u H).
  - intros p e u bops rops -> Hd Hp.
    edestruct (chain_failed E bops rops (Next_New E (Response_Next p) method path) e)
      as (out & Hc & Hr & _ & Hw & _).
    + unfold Next_New. rewrite (New_parsed E method path u Hp). exact Hd.
    + exists out. auto.
Qed.

(** C10. A request whose path did not parse carries the parse error and
    nil URL, header map and body buffer; every builder operation and
    [Send] return on it without a fault, handing the request back as it
    was. *)
Theorem failed_construction_never_faults (E : Env) (method path text : string) :
  url_Parse E path = inr text ->
  let r := New E method path in
  (URL_ r = None /\ headers r = None /\ data r = None /\
   err r = Some (errorString ("error parsing url " +:+ strconv_Quote E path
                                +:+ ": " +:+ text))) /\
  (forall key value, Header_set key value r = Ok r) /\
  (forall username password, BasicAuth E username password r = Ok r) /\
  (forall key value, QueryParam E key value r = Ok r) /\
  (forall key value, Param E key value r = Ok r) /\
  (forall value, Body_set value r = Ok r) /\
  (forall value, JSONBody E value r = Ok r) /\
  (forall form, MultipartBody form r = Ok r) /\
  Send E r = Ok ({| Response_ := Some http_Response_zero; req := r |}, []) /\
  (forall ops, exists r', build E ops r = Ok r' /\ frozen r r').
Proof.
  intros Hparse r. subst r. rewrite (New_failed E method path text Hparse).
  repeat split; try reflexivity.
  intros ops. eapply build_failed. reflexivity.
Qed.

(** The faults are in the model: the same nil fields with no failure
    recorded make [Header], [QueryParam], [Param] and [Send] panic. *)
Lemma nil_fields_fault (E : Env) :
  let r := {| URL_ := None; method := EmptyString; data := None;
              headers := None; err := None; span := false |} in
  Header_set "Accept" "text/html" r = Panic nil_map_write /\
  QueryParam E "a" "b" r = Panic nil_deref /\
  Param E "a" "b" r = Panic nil_deref /\
  Send E r = Panic nil_deref.
Proof. repeat split. Qed.

(** ** Path parameters *)

Lemma Index_None_Contains (s sub : string) :
  strings.Index s sub = None <-> strings.Contains s sub = false.
Proof.
  induction s as [|c s IH]; cbn [strings.Index]; rewrite Contains_unfold;
    destruct (strings.HasPrefix _ sub); simpl; try easy.
  rewrite <- IH. destruct (strings.Index s sub); simpl; easy.
Qed.

Lemma set_URL_same (r : Request) (u : URL) :
  URL_ r = Some u -> set_URL (Some u) r = r.
Proof. destruct r; simpl; intros ->; reflexivity. Qed.

(** C5, as the code has it.  On a request that has not failed,
    [Param key value] replaces the first instance of [:key] in the
    rendering of the whole URL (scheme, host, path and query), parses
    the result again, and records a request error exactly when that
    parse fails, leaving the target as it was; when the rendering has
    no instance of [:key] and parses back to the URL it came from, the
    request is unchanged and no failure is recorded. *)
Theorem Param_rewrites_rendering (E : Env) (key value : string)
    (r : Request) (u : URL) :
  err r = None ->
  URL_ r = Some u ->
  let rendering := url_String E u in
  let token := ":" +:+ key in
  let path :=
    match strings.Index rendering token with
    | Some i =>
        String.substring 0 i rendering +:+ value
          +:+ strings.drop (i + String.length token) rendering
    | None => rendering
    end in
  (forall u', url_Parse E path = inl u' ->
              Param E key value r = Ok (set_URL (Some u') r)) /\
  (forall text, url_Parse E path = inr text ->
                Param E key value r
                = Ok (set_err (Some (requestError text)) r)) /\
  (exists r', Param E key value r = Ok r' /\
              (is_Some (err r') <-> exists text, url_Parse E path = inr text)) /\
  (strings.Index rendering token = None ->
   url_Parse E rendering = inl u ->
   Param E key value r = Ok r).
Proof.
  intros He Hu rendering token path.
  assert (Hpath : strings.Replace1 rendering token value = path).
  { subst path. apply Replace1_Index. }
  assert (Hdef : Param E key value r =
                 match url_Parse E path with
                 | inr text => Ok (set_err (Some (handleRequestError text)) r)
                 | inl url => Ok (set_URL (Some url) r)
                 end).
  { unfold Param. rewrite He, Hu. fold rendering token. now rewrite Hpath. }
  repeat split.
  - intros u' Hp. now rewrite Hdef, Hp.
  - intros text Hp. now rewrite Hdef, Hp.
  - rewrite Hdef. destruct (url_Parse E path) as [u'|text].
    + eexists. split; [reflexivity|]. simpl. rewrite He. split.
      * intros [x Hx]. discriminate.
      * intros [text Ht]. discriminate.
    + eexists. split; [reflexivity|]. simpl. split; eauto.
  - intros Hnone Hround. rewrite Hdef. subst path. rewrite Hnone, Hround.
    now rewrite set_URL_same.
Qed.

(** ** Multipart bodies *)


(** ** The body stream *)

Lemma closes_of_Body (p : Response) (h : http_Response) (s : Stream) :
  Response_ p = Some h -> Body h = Some s -> closes_of p = Some (closes s).
Proof. unfold closes_of. intros -> Hs. simpl. now rewrite Hs. Qed.

Lemma closes_of_fail (text : string) (p : Response) :
  closes_of (fail text p) = closes_of p.
Proof. reflexivity. Qed.

Lemma closes_of_with_Body (s : Stream) (h : http_Response) (p : Response) :
  closes_of (with_Body s h p) = Some (closes s).
Proof. reflexivity. Qed.

(** In the first revision an operation that does not read the body
    leaves a stream that was never closed as it is. *)
Lemma unread_op_stays_open (E : Env) (o : ResponseOp) (p p' : Response)
    (outs : list (Output (JSONValue E))) :
  reads_body o = false ->
  apply_response_op E o p = Ok (p', outs) ->
  closes_of p = Some 0%nat ->
  closes_of p' = Some 0%nat.
Proof.
  intros Ho Hop Hc.
  destruct o; try discriminate Ho; simpl in Hop;
    unfold Proxy, ExpectSuccess, ExpectStatusCode, ExpectHeader, ExpectType,
      ExpectHeader, GetHeader, PrintJSON, read_all in Hop;
    repeat case_match; simplify_eq;
    rewrite ?closes_of_fail, ?closes_of_with_Body; try assumption;
    try reflexivity;
    match goal with
    | Hh : Response_ p = Some ?h, Hs : Body ?h = Some ?s |- _ =>
        rewrite (closes_of_Body p h s Hh Hs) in Hc; exact Hc
    end.
Qed.

Lemma unread_body_stays_open (E : Env) (ops : list ResponseOp) (p p' : Response)
    (outs : list (Output (JSONValue E))) :
  forallb (fun o => negb (reads_body o)) ops = true ->
  inspect E ops p = Ok (p', outs) ->
  closes_of p = Some 0%nat ->
  closes_of p' = Some 0%nat.
Proof.
  revert p outs. induction ops as [|o ops IH]; intros p outs Hall Hi Hc.
  - simpl in Hi. now simplify_eq.
  - simpl in Hall. apply andb_prop in Hall as [Ho Hall].
    apply negb_true_iff in Ho. simpl in Hi.
    destruct (apply_response_op E o p) as [[p1 out1]|] eqn:Hop; [|discriminate].
    simpl in Hi.
    destruct (inspect E ops p1) as [[p2 out2]|] eqn:Hrest; [|discriminate].
    simpl in Hi. simplify_eq.
    apply (IH p1 out2 Hall Hrest).
    exact (unread_op_stays_open E o p p1 out1 Ho Hop Hc).
Qed.

(** * Runs on the reference collaborators *)

(** The scenario of the specification: [:id] in the path is replaced. *)
Example Param_id_42 :
  (r ← Param Ref.env "id" "42" (Get Ref.env "http://x/:id");
   Ok (Path <$> URL_ r, Host <$> URL_ r, err r))
  = Ok (Some "/42", Some "x", None).
Proof. vm_compute. reflexivity. Qed.

(** The repository's test: header, success, header and body read back. *)
Example TestQuest :
  (out ← chain Ref.env [OpHeader "X-Some-Header" "some-fake-token"]
         [OpExpectSuccess; OpGetHeader "X-Some-Header"; OpGetBody]
         (Get Ref.env "http://127.0.0.1:8080");
   Ok (result out, outputs out))
  = Ok (None, [Stored "some-fake-token"; Stored "Hello, world!"]).
Proof. vm_compute. reflexivity. Qed.

(** C5 fails as stated: with [:80] both in the host and in the path, the
    instance in the host is the one replaced and the path keeps its
    placeholder, where replacing in the path would give [/81]; and a key
    with no placeholder in the path can still make the request fail. *)
Lemma Param_not_confined_to_path :
  let r := Get Ref.env "http://x:80/:80" in
  let r2 := Get Ref.env "http://x:80/a" in
  (err r = None /\
   Path <$> URL_ r = Some "/:80" /\
   strings.Replace1 "/:80" ":80" "81" = "/81" /\
   (r' ← Param Ref.env "80" "81" r; Ok (Host <$> URL_ r', Path <$> URL_ r', err r'))
   = Ok (Some "x81", Some "/:80", None)) /\
  (err r2 = None /\
   Path <$> URL_ r2 = Some "/a" /\
   strings.Contains "/a" ":80" = false /\
   (r2' ← Param Ref.env "80" ":zz" r2; Ok (URL_ r2', err r2'))
   = Ok (URL_ r2,
         Some (requestError ("parse " +:+ Ref.Quote "http://x:zz/a"
                               +:+ ": invalid port " +:+ Ref.Quote ":zz"
                               +:+ " after host")))).
Proof. repeat split; vm_compute; reflexivity. Qed.

(** C6 fails on the code: when the form carries an error,
    [MultipartBody] has already written the form's [Content-Type] into
    the headers of the request before it records the failure; only the
    body is left alone. *)
Theorem MultipartBody_failed_form_sets_header :
  let r := Post Ref.env "http://x/upload" in
  err r = None /\
  headers r ≫= (.!! "Content-Type") = None /\
  (r' ← MultipartBody (Some broken_form) r;
   Ok (err r', headers r' ≫= (.!! "Content-Type")))
  = Ok (Err broken_form, Some "multipart/form-data; boundary=b0undary") /\
  (r' ← MultipartBody (Some broken_form) r; Ok (data r', URL_ r', method r'))
  = Ok (data r, URL_ r, method r).
Proof. repeat split; vm_compute; reflexivity. Qed.

(** C4 fails on the code.  In the first revision a chain that never
    reads the body reaches [Done] with the stream never closed.  In the
    second revision [Next] leaves the stream open, and [Done] on the
    response of a skipped [Send] panics on the nil body. *)
Theorem body_not_closed_once :
  (out ← chain Ref.env [OpHeader "X-Some-Header" "some-fake-token"]
         [OpExpectStatusCode 400]
         (Get Ref.env "http://127.0.0.1:8080?bad=true");
   Ok (result out, length (wire out), closes_of (final out)))
  = Ok (None, 1%nat, Some 0%nat) /\
  ('(p, calls) ← Send Ref.env (Get Ref.env "http://127.0.0.1:8080");
   Ok (SecondRevision.Response_Next p, length calls, closes_of p))
  = Ok ({| next_err := None |}, 1%nat, Some 0%nat) /\
  ('(p, calls) ← Send Ref.env (Get Ref.env ":id");
   Ok (err (req p), length calls)) = Ok (Some no_scheme_error, 0%nat) /\
  ('(p, calls) ← Send Ref.env (Get Ref.env ":id"); SecondRevision.Done p)
  = Panic nil_deref.
Proof. repeat split; vm_compute; reflexivity. Qed.

(** The exit paths on which the code does close the stream once: the
    first revision after [GetBody], the second at [Done]. *)
Example body_closed_once :
  (out ← chain Ref.env [] [OpExpectSuccess; OpGetBody]
         (Get Ref.env "http://127.0.0.1:8080");
   Ok (outputs out, closes_of (final out)))
  = Ok ([Stored Ref.TestString], Some 1%nat) /\
  ('(p, calls) ← Send Ref.env (Get Ref.env "http://127.0.0.1:8080");
   '(p1, e) ← SecondRevision.Done p;
   Ok (e, closes_of p1)) = Ok (None, Some 1%nat).
Proof. repeat split; vm_compute; reflexivity. Qed.

(** * The theorems at concrete inputs *)

(** A 404 response is outside the 200 range. *)
Lemma ExpectSuccess_range_witness :
  err (req (served 404 "text/plain")) = None /\
  exists r',
    ExpectSuccess Ref.env (served 404 "text/plain") = Ok (r', []) /\
    (is_Some (err (req r')) <-> ~ (200 <= 404 < 300)) /\
    (200 <= 404 < 300 -> r' = served 404 "text/plain").
Proof.
  split; [vm_compute; reflexivity|].
  apply (ExpectSuccess_range Ref.env (served 404 "text/plain")
           (Ref.serve 404 "text/plain" Ref.TestString []));
    vm_compute; reflexivity.
Defined.

(** Expecting 200 from a 404 response: the message holds both codes. *)
Lemma ExpectStatusCode_message_witness :
  err (req (served 404 "text/plain")) = None /\
  exists r',
    ExpectStatusCode Ref.env 200 (served 404 "text/plain") = Ok (r', []) /\
    (is_Some (err (req r')) <-> 404 <> 200) /\
    (404 = 200 -> r' = served 404 "text/plain") /\
    (404 <> 200 ->
     exists message,
       err (req r') = Some (responseError message) /\
       strings.Contains message "200" = true /\
       strings.Contains message "404" = true).
Proof.
  split; [vm_compute; reflexivity|].
  apply (ExpectStatusCode_message Ref.env 200 (served 404 "text/plain")
           (Ref.serve 404 "text/plain" Ref.TestString []));
    vm_compute; reflexivity.
Defined.

(** [json] accepts a content type with a charset parameter. *)
Lemma ExpectType_alias_witness :
  let r := served 200 "application/json; charset=utf-8" in
  err (req r) = None /\
  ExpectType Ref.env "json" r
  = ExpectHeader Ref.env "Content-Type" "application/json" r /\
  exists r',
    ExpectType Ref.env "json" r = Ok (r', []) /\
    (err (req r') = None <->
     strings.Contains "application/json; charset=utf-8" "application/json" = true) /\
    (err (req r') = None -> r' = r).
Proof.
  intros r. split; [vm_compute; reflexivity|].
  destruct (ExpectType_alias Ref.env "json" r
              (Ref.serve 200 "application/json; charset=utf-8" Ref.TestString [])
              ltac:(vm_compute; reflexivity) ltac:(vm_compute; reflexivity))
    as (_ & _ & _ & _ & _ & _ & Hdef & Hex).
  split; [exact Hdef | exact Hex].
Defined.

(** A marshalling failure while building and a 404 while inspecting:
    the operations after them change nothing. *)
Lemma first_failure_is_final_witness :
  (build Ref.env failing_build (Post Ref.env "http://x/:id")
   = Ok after_failing_build /\
   err after_failing_build
   = Some (requestError "json: unsupported type: chan int") /\
   exists out,
     chain Ref.env
           (failing_build
              ++ [OpHeader "X-Some-Header" "t"; OpParam "id" ":zz"; OpStartSpan])
           [OpExpectSuccess; OpGetBody]
           (Post Ref.env "http://x/:id") = Ok out /\
     result out = Some (requestError "json: unsupported type: chan int") /\
     frozen after_failing_build (req (final out))) /\
  (err (req inspected_missing)
   = Some (responseError
             "Invalid StatusCode. Expected to be in 200 range, got '404'") /\
   chain Ref.env [OpHeader "X-Some-Header" "t"]
         ([OpExpectSuccess] ++ [OpExpectStatusCode 200; OpGetBody; OpGetJSON])
         (Get Ref.env "http://x/missing")
   = Ok {| final := inspected_missing;
           result := Some (responseError
             "Invalid StatusCode. Expected to be in 200 range, got '404'");
           wire := snd sent_missing; outputs := [] |}).
Proof.
  destruct (first_failure_is_final Ref.env) as (_ & _ & _ & Hbuild & Hinspect).
  split.
  - split; [vm_compute; reflexivity|]. split; [vm_compute; reflexivity|].
    apply Hbuild; vm_compute; reflexivity.
  - split; [vm_compute; reflexivity|].
    apply (Hinspect [OpHeader "X-Some-Header" "t"] [OpExpectSuccess]
             [OpExpectStatusCode 200; OpGetBody; OpGetJSON]
             (Get Ref.env "http://x/missing") built_missing
             (fst sent_missing) inspected_missing (snd sent_missing) []);
      vm_compute; reflexivity.
Defined.

(** A request on the path [:id]: nothing reaches the transport. *)
Lemma Send_skips_transport_witness :
  let r := Get Ref.env ":id" in
  err r = Some no_scheme_error /\
  url_Parse Ref.env ":id" = inr no_scheme /\
  (exists p,
      Send Ref.env r = Ok (p, []) /\
      (exists h, Response_ p = Some h /\ StatusCode h = 0 /\ Body h = None /\
                 Header h = ∅) /\
      req p = r /\ Done p = Some no_scheme_error) /\
  (exists out,
      chain Ref.env [OpHeader "A" "b"; OpQueryParam "k" "v"]
            [OpExpectSuccess; OpGetBody] (New Ref.env "GET" ":id") = Ok out /\
      wire out = [] /\
      result out = err (New Ref.env "GET" ":id") /\
      is_Some (result out)).
Proof.
  intros r. split; [vm_compute; reflexivity|]. split; [vm_compute; reflexivity|].
  apply (Send_skips_transport Ref.env r no_scheme_error "GET" ":id" no_scheme);
    vm_compute; reflexivity.
Defined.

(** [Next] on a chain that failed, then a new request that parses. *)
Lemma continuation_imports_failure_witness :
  let p := {| Response_ := Some http_Response_zero; req := Get Ref.env ":id" |} in
  let n := Response_Next p in
  Done p = Some no_scheme_error /\
  (Next_New Ref.env n "GET" ":id" = New Ref.env "GET" ":id" /\
   is_Some (err (Next_New Ref.env n "GET" ":id"))) /\
  err (Next_New Ref.env n "POST" "http://x/a") = next_err n /\
  Next_Get Ref.env n "http://x/a" = Next_New Ref.env n "GET" "http://x/a" /\
  (exists out,
      chain Ref.env [OpHeader "A" "b"] [OpExpectSuccess; OpGetBody]
            (Next_New Ref.env n "GET" "http://x/a") = Ok out /\
      result out = Some no_scheme_error /\ wire out = []).
Proof.
  intros p n. split; [vm_compute; reflexivity|].
  split; [|split; [|split]].
  - apply (proj1 (continuation_imports_failure Ref.env n "GET" ":id") no_scheme).
    vm_compute. reflexivity.
  - apply (proj1 (proj2 (continuation_imports_failure Ref.env n "POST" "http://x/a"))
             sample_url).
    vm_compute. reflexivity.
  - apply (proj1 (proj2 (proj2
             (continuation_imports_failure Ref.env n "GET" "http://x/a")))).
  - apply (proj2 (proj2 (proj2
             (continuation_imports_failure Ref.env n "GET" "http://x/a")))
             p no_scheme_error sample_url);
      vm_compute; reflexivity.
Defined.

(** The request built on [:id] takes every operation without a fault. *)
Lemma failed_construction_never_faults_witness :
  url_Parse Ref.env ":id" = inr no_scheme /\
  let r := New Ref.env "GET" ":id" in
  (URL_ r = None /\ headers r = None /\ data r = None /\
   err r = Some (errorString ("error parsing url " +:+ strconv_Quote Ref.env ":id"
                                +:+ ": " +:+ no_scheme))) /\
  (forall key value, Header_set key value r = Ok r) /\
  (forall username password, BasicAuth Ref.env username password r = Ok r) /\
  (forall key value, QueryParam Ref.env key value r = Ok r) /\
  (forall key value, Param Ref.env key value r = Ok r) /\
  (forall value, Body_set value r = Ok r) /\
  (forall value, JSONBody Ref.env value r = Ok r) /\
  (forall form, MultipartBody form r = Ok r) /\
  Send Ref.env r = Ok ({| Response_ := Some http_Response_zero; req := r |}, []) /\
  (forall ops, exists r', build Ref.env ops r = Ok r' /\ frozen r r').
Proof.
  split; [vm_compute; reflexivity|].
  apply (failed_construction_never_faults Ref.env "GET" ":id" no_scheme).
  vm_compute. reflexivity.
Defined.

(** [:id] replaced in [http://x/:id]; nothing to replace in
    [http://x/a]. *)
Lemma Param_rewrites_rendering_witness :
  let r := Get Ref.env "http://x/:id" in
  let r2 := Get Ref.env "http://x/a" in
  (err r = None /\ URL_ r = Some sample_url_id /\
   Param Ref.env "id" "42" r = Ok (set_URL (Some sample_url_42) r) /\
   Path sample_url_42 = "/42") /\
  (err r2 = None /\ URL_ r2 = Some sample_url /\
   strings.Index (url_String Ref.env sample_url) ":id" = None /\
   Param Ref.env "id" "42" r2 = Ok r2).
Proof.
  intros r r2. split.
  - split; [vm_compute; reflexivity|]. split; [vm_compute; reflexivity|].
    split; [|reflexivity].
    apply (proj1 (Param_rewrites_rendering Ref.env "id" "42" r sample_url_id
                    ltac:(vm_compute; reflexivity) ltac:(vm_compute; reflexivity))).
    vm_compute. reflexivity.
  - split; [vm_compute; reflexivity|]. split; [vm_compute; reflexivity|].
    split; [vm_compute; reflexivity|].
    apply (proj2 (proj2 (proj2
             (Param_rewrites_rendering Ref.env "id" "42" r2 sample_url
                ltac:(vm_compute; reflexivity) ltac:(vm_compute; reflexivity)))));
      vm_compute; reflexivity.
Defined.

(** * Further properties of the builder *)

Lemma same_but_err_refl (r : Request) : same_but_err r r.
Proof. repeat split. Qed.

Lemma same_but_err_trans (r1 r2 r3 : Request) :
  same_but_err r1 r2 -> same_but_err r2 r3 -> same_but_err r1 r3.
Proof.
  intros (A1 & A2 & A3 & A4 & A5) (B1 & B2 & B3 & B4 & B5).
  repeat split; congruence.
Qed.

(** X1. On a request that has not failed, [Header] overwrites the entry
    of its key and leaves every other entry, the target, the method and
    the body alone; setting a key twice keeps the last value, and
    settings of different keys commute.  Keys are compared byte for
    byte. *)
Theorem Header_last_write_wins (key key' v1 v2 : string) (r : Request)
    (h : gmap string string) :
  err r = None ->
  headers r = Some h ->
  (exists r' h',
      Header_set key v1 r = Ok r' /\ headers r' = Some h' /\
      h' !! key = Some v1 /\
      (forall k, k <> key -> h' !! k = h !! k) /\
      URL_ r' = URL_ r /\ method r' = method r /\ data r' = data r /\
      err r' = None) /\
  (r1 ← Header_set key v1 r; Header_set key v2 r1) = Header_set key v2 r /\
  (key <> key' ->
   (r1 ← Header_set key v1 r; Header_set key' v2 r1)
   = (r1 ← Header_set key' v2 r; Header_set key v1 r1)).
Proof.
  intros He Hh. unfold Header_set. rewrite He, Hh. simpl. rewrite He. simpl.
  split; [|split].
  - eexists. eexists. split; [reflexivity|]. simpl. split; [reflexivity|].
    split; [apply lookup_insert_eq|]. split; [|auto].
    intros k Hk. now apply lookup_insert_ne.
  - unfold set_headers. simpl. now rewrite insert_insert_eq.
  - intros Hne. unfold set_headers. simpl. f_equal. f_equal. f_equal.
    now apply insert_insert_ne.
Qed.

(** X2. [JSONBody] is all or nothing on a request that has not failed:
    when the value cannot be marshalled only the failure is recorded, as
    a request error with the encoder's text; otherwise the body becomes
    the encoding, [Content-Type] becomes [application/json] whatever it
    was, and every other header, the target and the method stay. *)
Theorem JSONBody_all_or_nothing (E : Env) (value : JSONValue E) (r : Request)
    (h : gmap string string) :
  err r = None ->
  headers r = Some h ->
  exists r',
    JSONBody E value r = Ok r' /\
    URL_ r' = URL_ r /\ method r' = method r /\ span r' = span r /\
    match json_Marshal E value with
    | inr text =>
        err r' = Some (requestError text) /\
        headers r' = headers r /\ data r' = data r
    | inl b =>
        err r' = None /\ data r' = Some b /\
        exists h', headers r' = Some h' /\
                   h' !! "Content-Type" = Some "application/json" /\
                   forall k, k <> "Content-Type" -> h' !! k = h !! k
    end.
Proof.
  intros He Hh. unfold JSONBody. rewrite He.
  destruct (json_Marshal E value) as [b|text].
  - unfold Header_set. rewrite He, Hh. simpl. unfold Body_set. simpl.
    rewrite He. eexists. split; [reflexivity|]. simpl.
    repeat split; try assumption. eexists. split; [reflexivity|].
    split; [apply lookup_insert_eq|]. intros k Hk. now apply lookup_insert_ne.
  - eexists. split; [reflexivity|]. simpl. repeat split.
Qed.
(** * Further properties of dispatch *)

(** X3. [Send] never changes the target, method, headers or body of its
    request and calls the transport at most once.  When it makes no
    call the response is the zero response and a failure is recorded;
    when it calls, the request had not failed, the call carries the
    method, the rendering of the URL, the headers and the body of the
    request, the response is what the transport returned, and a
    transport error is recorded as a request error. *)
Theorem Send_dispatch (E : Env) (r : Request) (p : Response) (calls : list Call) :
  Send E r = Ok (p, calls) ->
  same_but_err r (req p) /\
  ((calls = [] /\ Response_ p = Some http_Response_zero /\ is_Some (err (req p)) /\
    (is_Some (err r) -> req p = r)) \/
   (exists u body,
       err r = None /\ URL_ r = Some u /\ data r = Some body /\
       let call := {| call_method := method r; call_url := url_String E u;
                      call_headers := default ∅ (headers r);
                      call_body := body |} in
       calls = [call] /\
       Response_ p = fst (client_Do E call) /\
       err (req p) = requestError <$> snd (client_Do E call))).
Proof.
  unfold Send. intros H.
  destruct (err r) as [e|] eqn:He.
  { simplify_eq. simpl. split; [apply same_but_err_refl|]. left.
    rewrite He. eauto. }
  destruct (URL_ r) as [u|] eqn:Hu; [|discriminate].
  destruct (http_NewRequest E (method r) (url_String E u)) as [text|].
  { simplify_eq. simpl. split; [repeat split; assumption|]. left.
    repeat split; eauto. intros [x Hx]. discriminate. }
  destruct (data r) as [body|] eqn:Hd; [|discriminate].
  match type of H with context [client_Do E ?c] =>
    destruct (client_Do E c) as [resp [text|]] eqn:Hdo end;
    simplify_eq; simpl.
  - split; [repeat split; assumption|]. right. exists u, body.
    repeat split. all: simpl; now rewrite Hdo.
  - split; [repeat split; assumption|]. right. exists u, body.
    repeat split. all: simpl; now rewrite Hdo.
Qed.

(** * Further properties of the response inspector *)

Lemma response_op_frame (E : Env) (o : ResponseOp) (p p' : Response)
    (outs : list (Output (JSONValue E))) :
  apply_response_op E o p = Ok (p', outs) ->
  same_but_err (req p) (req p') /\ same_answer p p' /\
  (err (req p) = None ->
   err (req p') = None \/ exists text, err (req p') = Some (responseError text)).
Proof.
  intros Hop.
  destruct o; simpl in Hop;
    unfold Proxy, ExpectSuccess, ExpectStatusCode, ExpectHeader, ExpectType,
      ExpectHeader, GetHeader, PrintJSON, GetBody, GetJSON, read_all in Hop;
    repeat case_match; simplify_eq;
    (split; [repeat split|split; [repeat split|]]);
    simpl; try reflexivity; eauto;
    try match goal with
        | Hh : Response_ p = Some ?h |- _ => rewrite Hh; reflexivity
        end;
    try (intros; discriminate).
Qed.

(** X4. A response operation changes nothing but the failure slot of the
    request and the body stream: the target, method, headers and body
    of the request and the status, headers and content length of the
    response are those it was given, and the only failure it records is
    a response error. *)
Theorem inspect_frame (E : Env) (ops : list ResponseOp) (p p' : Response)
    (outs : list (Output (JSONValue E))) :
  inspect E ops p = Ok (p', outs) ->
  same_but_err (req p) (req p') /\ same_answer p p' /\
  (err (req p) = None ->
   err (req p') = None \/ exists text, err (req p') = Some (responseError text)).
Proof.
  revert p outs. induction ops as [|o ops IH]; intros p outs Hi.
  - simpl in Hi. simplify_eq. split; [apply same_but_err_refl|].
    split; [repeat split|]. auto.
  - simpl in Hi.
    destruct (apply_response_op E o p) as [[p1 out1]|] eqn:Hop; [|discriminate].
    simpl in Hi.
    destruct (inspect E ops p1) as [[p2 out2]|] eqn:Hrest; [|discriminate].
    simpl in Hi. simplify_eq.
    destruct (response_op_frame E o p p1 out1 Hop) as (F1 & A1 & K1).
    destruct (IH p1 out2 Hrest) as (F2 & A2 & K2).
    split; [eapply same_but_err_trans; eauto|]. split.
    + destruct A1 as (a1 & a2 & a3), A2 as (b1 & b2 & b3).
      repeat split; congruence.
    + intros He. destruct (K1 He) as [Hn|[text Ht]]; [auto|].
      right. exists text.
      rewrite (inspect_failed E ops p1 _ Ht) in Hrest. now simplify_eq.
Qed.
(** * The kinds of failure and the absence of faults *)

Lemma request_op_kinds (E : Env) (o : RequestOp (JSONValue E)) (r r' : Request) :
  err r = None ->
  apply_request_op E o r = Ok r' ->
  err r' = None \/
  (exists text, err r' = Some (requestError text)) \/
  (exists f e, o = OpMultipartBody (Some f) /\ Err f = Some e /\ err r' = Some e).
Proof.
  intros He Hop.
  destruct o; simpl in Hop;
    unfold StartSpan, Header_set, BasicAuth, QueryParam, Param, Body_set,
      JSONBody, MultipartBody, Header_set, Body_set, mbind, Res_bind in Hop;
    simpl in Hop;
    repeat (case_match; simpl in *; simplify_eq); simpl; eauto.
  all: try (right; right; eauto; fail).
  all: try (left; assumption).
  simplify_eq. left. exact He.
Qed.

Lemma build_kinds (E : Env) (ops : list (RequestOp (JSONValue E))) (r r1 : Request) :
  err r = None ->
  build E ops r = Ok r1 ->
  err r1 = None \/
  (exists text, err r1 = Some (requestError text)) \/
  (exists f e, In (OpMultipartBody (Some f)) ops /\ Err f = Some e /\
               err r1 = Some e).
Proof.
  revert r. induction ops as [|o ops IH]; intros r He Hb.
  - simpl in Hb. simplify_eq. auto.
  - simpl in Hb.
    destruct (apply_request_op E o r) as [r'|] eqn:Hop; [|discriminate].
    simpl in Hb. destruct (err r') as [e|] eqn:He'.
    + destruct (build_failed E ops r' e He') as (r2 & Hb2 & F).
      rewrite Hb2 in Hb. simplify_eq.
      destruct F as (_ & _ & _ & _ & ->).
      destruct (request_op_kinds E o r r' He Hop) as [Hn|[[t Ht]|(f & e' & -> & Hf & Hr)]].
      * congruence.
      * right. left. exists t. congruence.
      * right. right. exists f, e'. rewrite He'. simpl. split; [auto|].
        split; congruence.
    + destruct (IH r' He' Hb) as [Hn|[Ht|(f & e' & Hin & Hf & Hr)]]; auto.
      right. right. exists f, e'. simpl. auto.
Qed.

(** X5. The failure a chain ends with, started on a request that had
    not failed, is of one of three kinds: a request error, recorded
    while building or by [Send], with at most one call to the transport
    and no output; a response error, recorded after exactly one call to
    the transport; or the error of a form given to [MultipartBody], with
    no call at all. *)
Theorem failure_kinds (E : Env) (bops : list (RequestOp (JSONValue E)))
    (rops : list ResponseOp) (r : Request) (out : Outcome (JSONValue E)) :
  err r = None ->
  chain E bops rops r = Ok out ->
  result out = None \/
  (exists text, result out = Some (requestError text) /\
                (length (wire out) <= 1)%nat /\ outputs out = []) \/
  (exists text, result out = Some (responseError text) /\
                length (wire out) = 1%nat) \/
  (exists f e, In (OpMultipartBody (Some f)) bops /\ Err f = Some e /\
               result out = Some e /\ wire out = [] /\ outputs out = []).
Proof.
  intros He Hc. unfold chain in Hc.
  destruct (build E bops r) as [r1|] eqn:Hb; [|discriminate]. simpl in Hc.
  destruct (Send E r1) as [[p calls]|] eqn:Hs; [|discriminate]. simpl in Hc.
  destruct (inspect E rops p) as [[p1 outs]|] eqn:Hi; [|discriminate].
  simpl in Hc. simplify_eq. simpl. unfold Done.
  destruct (Send_dispatch E r1 p calls Hs) as (_ & Hsend).
  destruct (build_kinds E bops r r1 He Hb) as [Hn|Hfailed].
  - destruct Hsend as [(-> & _ & [e Hse] & _)|(u & body & _ & _ & _ & Hcall)].
    + unfold Send in Hs. rewrite Hn in Hs.
      repeat (case_match; simplify_eq). simpl in *.
      erewrite inspect_failed in Hi by reflexivity. simplify_eq. simpl.
      right. left. eexists. split; [reflexivity|]. simpl. auto.
    + simpl in Hcall. destruct Hcall as (-> & _ & Hperr).
      destruct (err (req p)) as [e|] eqn:Hpe.
      * rewrite (inspect_failed E rops p e Hpe) in Hi. simplify_eq.
        rewrite Hpe. destruct (snd (client_Do E _)); simplify_eq.
        right. left. eauto.
      * destruct (inspect_frame E rops p p1 outs Hi) as (_ & _ & K).
        destruct (K Hpe) as [->|[text ->]]; [auto|].
        right. right. left. eauto.
  - assert (exists e, err r1 = Some e) as [e He1].
    { destruct Hfailed as [[t Ht]|(f & e & _ & _ & Hr)]; eauto. }
    rewrite (Send_failed E r1 e He1) in Hs. simplify_eq.
    rewrite (inspect_failed E rops (mkResponse (Some http_Response_zero) r1) e He1)
      in Hi.
    simplify_eq. simpl.
    destruct Hfailed as [[t Ht]|(f & e' & Hin & Hf & Hr)].
    + right. left. exists t. auto.
    + right. right. right. exists f, e'. auto.
Qed.








(** The faults the hypotheses rule out are real: [Body(nil)] makes
    [Send] panic. *)
Lemma Body_nil_faults (E : Env) (method path : string) (u : URL) :
  url_Parse E path = inl u ->
  http_NewRequest E method (url_String E u) = None ->
  chain E [OpBody None] [] (New E method path) = Panic nil_deref.
Proof.
  intros Hp Hn. unfold chain. simpl. rewrite (New_parsed E method path u Hp).
  unfold Body_set. simpl. unfold Send. simpl. now rewrite Hn.
Qed.
(** * Further properties of the expectations and readers *)

Lemma Contains_empty (s : string) : strings.Contains s EmptyString = true.
Proof. rewrite Contains_unfold. reflexivity. Qed.

Lemma Contains_in_empty (value : string) :
  value <> EmptyString -> strings.Contains EmptyString value = false.
Proof. destruct value; [congruence | reflexivity]. Qed.

(** X7. The edge cases of the header operations on a response whose
    request has not failed: [ExpectHeader] with an empty expected value
    never fails, whatever the header; on a header that is absent it
    fails for every other value; and [GetHeader] stores the empty
    string for an absent header without recording a failure. *)
Theorem header_edge_cases (E : Env) (key value : string) (p : Response)
    (h : http_Response) :
  err (req p) = None ->
  Response_ p = Some h ->
  ExpectHeader E key EmptyString p = Ok (p, []) /\
  (Header h !! textproto.CanonicalMIMEHeaderKey key = None ->
   value <> EmptyString ->
   exists text, ExpectHeader E key value p = Ok (fail text p, [])) /\
  (Header h !! textproto.CanonicalMIMEHeaderKey key = None ->
   GetHeader E key p = Ok (p, [Stored EmptyString])).
Proof.
  intros He Hh. unfold ExpectHeader, GetHeader, Header_Get.
  rewrite He, Hh. split; [|split].
  - now rewrite Contains_empty.
  - intros -> Hv. rewrite (Contains_in_empty value Hv). simpl. eauto.
  - intros ->. reflexivity.
Qed.

(** X8. [PrintJSON] is transparent for a later reader and cuts the
    transport's stream loose: [GetBody] after [PrintJSON] stores what
    [GetBody] alone stores, the text printed is the indented body, and
    whatever operations follow [PrintJSON], [Close] never reaches the
    stream again. *)
Theorem PrintJSON_rebuffers (E : Env) (ops : list ResponseOp) (p : Response)
    (h : http_Response) (s : Stream) :
  err (req p) = None ->
  Response_ p = Some h ->
  Body h = Some s ->
  let content := fst (read_all s) in
  (exists p1, inspect E [OpGetBody] p = Ok (p1, [Stored content])) /\
  (exists p2,
      inspect E [OpPrintJSON; OpGetBody] p
      = Ok (p2, [Printed ("Response JSON:" +:+ json_Indent E content +:+ newline);
                 Stored content])) /\
  (forall p' outs,
      inspect E (OpPrintJSON :: ops) p = Ok (p', outs) ->
      exists h' s', Response_ p' = Some h' /\ Body h' = Some s' /\
                    closer s' = false /\ closes s' = 0%nat).
Proof.
  intros He Hh Hs content. split; [|split].
  - simpl. unfold GetBody. rewrite He, Hh, Hs. simpl. eauto.
  - simpl. unfold PrintJSON. rewrite He, Hh, Hs. simpl.
    unfold GetBody. simpl. rewrite He. simpl. eauto.
  - intros p' outs. simpl. unfold PrintJSON at 1. rewrite He, Hh, Hs. simpl.
    match goal with |- context [inspect E ops ?x] => set (p0 := x) end.
    assert (Hinv : exists h' s', Response_ p0 = Some h' /\ Body h' = Some s' /\
                                 closer s' = false /\ closes s' = 0%nat).
    { subst p0. simpl. eexists. eexists. repeat split. }
    clearbody p0. clear He Hh Hs content.
    destruct (inspect E ops p0) as [[p1 out1]|] eqn:Hrest; [|discriminate].
    simpl. intros Hi. simplify_eq.
    revert p0 out1 Hinv Hrest. induction ops as [|o ops IH]; intros p0 out1 Hinv Hrest.
    + simpl in Hrest. now simplify_eq.
    + simpl in Hrest.
      destruct (apply_response_op E o p0) as [[pa oa]|] eqn:Hop; [|discriminate].
      simpl in Hrest.
      destruct (inspect E ops pa) as [[pb ob]|] eqn:Hr; [|discriminate].
      simpl in Hrest. simplify_eq.
      apply (IH pa ob); [|exact Hr].
      destruct Hinv as (h' & s' & Hh' & Hs' & Hc1 & Hc2).
      destruct o; simpl in Hop;
        unfold Proxy, ExpectSuccess, ExpectStatusCode, ExpectHeader, ExpectType,
          ExpectHeader, GetHeader, PrintJSON, GetBody, GetJSON, read_all, Close in Hop;
        repeat (case_match; simpl in *; simplify_eq);
        simpl; eauto 10.
Qed.


(** * Query parameters, JSON bodies and continuations *)

(** X11. [QueryParam] appends: on a request that has not failed, two
    calls with the same key leave both values after those the query
    already had, in the order of the calls, and touch no other key and
    no other part of the URL, provided the query string written by the
    first call reads back as the values it encodes. *)
Theorem QueryParam_appends (E : Env) (key v1 v2 : string) (r : Request) (u : URL) :
  err r = None ->
  URL_ r = Some u ->
  let q0 := url_ParseQuery E (RawQuery u) in
  let q1 := Values_Add key v1 q0 in
  let q2 := Values_Add key v2 q1 in
  url_ParseQuery E (url_Encode E q1) = q1 ->
  (r1 ← QueryParam E key v1 r; QueryParam E key v2 r1)
  = Ok (set_URL (Some (set_RawQuery (url_Encode E q2) u)) r) /\
  q2 !! key = Some (default [] (q0 !! key) ++ [v1; v2]) /\
  (forall k, k <> key -> q2 !! k = q0 !! k).
Proof.
  intros He Hu q0 q1 q2 Hround. split; [|split].
  - unfold QueryParam. rewrite He, Hu. simpl. rewrite He. simpl.
    fold q0. fold q1. rewrite Hround. reflexivity.
  - subst q2 q1. unfold Values_Add. rewrite !lookup_insert_eq. simpl.
    now rewrite <- app_assoc.
  - intros k Hk. subst q2 q1. unfold Values_Add.
    now rewrite !lookup_insert_ne by congruence.
Qed.


Lemma chain_failed_next (E : Env) (bops : list (RequestOp (JSONValue E)))
    (rops : list ResponseOp) (r : Request) (e : error) :
  err r = Some e ->
  exists out,
    chain E bops rops r = Ok out /\ wire out = [] /\
    next_err (Response_Next (final out)) = Some e.
Proof.
  intros He.
  destruct (chain_failed E bops rops r e He) as (out & Hc & _ & F & Hw & _).
  exists out. split; [exact Hc|]. split; [exact Hw|].
  unfold Response_Next. simpl. destruct F as (_ & _ & _ & _ & ->). exact He.
Qed.

(** X13. A failure crosses every request that follows it.  When the
    continuation a sequence of requests starts from carries a failure,
    no request of the sequence reaches the transport and the last [Done]
    returns a failure: the one carried in when every path parses,
    otherwise the construction error of a request whose path does not
    parse.  A continuation without a failure starts requests as [New]
    does. *)
Theorem failure_crosses_requests (E : Env) (links : list (Link (JSONValue E)))
    (n : Next) (e : error) :
  next_err n = Some e ->
  (exists e', follow E n links = Ok (Some e', []) /\
              (Forall (fun l => exists u, url_Parse E (link_path l) = inl u) links ->
               e' = e)) /\
  (forall method path,
      Next_New E {| next_err := None |} method path = New E method path).
Proof.
  intros Hn. split.
  - revert n e Hn. induction links as [|l links IH]; intros n e Hn.
    + simpl. rewrite Hn. eauto.
    + simpl.
      assert (Hstart : exists e0,
                 err (Next_New E n (link_method l) (link_path l)) = Some e0 /\
                 ((exists u, url_Parse E (link_path l) = inl u) -> e0 = e)).
      { unfold Next_New, New.
        destruct (url_Parse E (link_path l)) as [u|text]; simpl.
        - exists e. auto.
        - eexists. split; [reflexivity|]. intros [u Hu]. discriminate. }
      destruct Hstart as (e0 & He0 & Hsame).
      destruct (chain_failed_next E (link_build l) (link_inspect l) _ e0 He0)
        as (out & Hc & Hw & Hnext).
      rewrite Hc. simpl. destruct (IH _ e0 Hnext) as (e' & Hf & Hall).
      rewrite Hf. simpl. rewrite Hw.
      exists e'. split; [reflexivity|]. intros HF.
      inversion HF as [|? ? Hl Hrest]; subst.
      rewrite (Hall Hrest). auto.
  - intros method path. unfold Next_New, New.
    destruct (url_Parse E path); reflexivity.
Qed.

(** * The second revision: [Done] closes the body *)

Lemma response_op2_body (E : Env) (o : ResponseOp2) (p : Response) (n : nat) :
  (exists h s, Response_ p = Some h /\ Body h = Some s /\
               closer s = true /\ closes s = n) ->
  exists p' outs,
    apply_response_op2 E o p = Ok (p', outs) /\
    (exists h s, Response_ p' = Some h /\ Body h = Some s /\
                 closer s = true /\ closes s = n) /\
    (is_Some (err (req p)) -> err (req p') = err (req p)).
Proof.
  intros (h & s & Hh & Hs & Hc & Hn).
  destruct o; simpl;
    unfold Proxy, ExpectSuccess, ExpectStatusCode, ExpectHeader, ExpectType,
      ExpectHeader, GetHeader, SecondRevision.GetBody, SecondRevision.GetJSON,
      read_all;
    rewrite ?Hh, ?Hs;
    repeat (case_match; simpl in *; simplify_eq);
    eexists; eexists; (split; [reflexivity|]); simpl;
    (split; [eauto 10|]); intros [x Hx]; simplify_eq; eauto.
Qed.

(** X14. In the second revision, on the response of a call that reached
    the transport, whose body was never closed, any sequence of
    response operations followed by [Done] returns and has called
    [Close] on the body exactly once, whether the operations read the
    body or not and whether one of them failed or not; [Done] returns
    the failure the operations ended with. *)
Theorem Done_closes_once (E : Env) (ops : list ResponseOp2) (p : Response)
    (h : http_Response) (s : Stream) :
  Response_ p = Some h ->
  Body h = Some s ->
  closer s = true ->
  closes s = 0%nat ->
  exists p1 outs p2,
    inspect2 E ops p = Ok (p1, outs) /\
    finish2 E ops p = Ok (p2, err (req p1)) /\
    closes_of p1 = Some 0%nat /\
    closes_of p2 = Some 1%nat /\
    (is_Some (err (req p)) -> err (req p1) = err (req p)).
Proof.
  intros Hh Hs Hc Hn.
  assert (Hinv : exists h s, Response_ p = Some h /\ Body h = Some s /\
                             closer s = true /\ closes s = 0%nat) by eauto 10.
  clear Hh Hs Hc Hn h s.
  assert (Hgen : exists p1 outs,
             inspect2 E ops p = Ok (p1, outs) /\
             (exists h s, Response_ p1 = Some h /\ Body h = Some s /\
                          closer s = true /\ closes s = 0%nat) /\
             (is_Some (err (req p)) -> err (req p1) = err (req p))).
  { revert p Hinv. induction ops as [|o ops IH]; intros p Hinv.
    - simpl. eauto 10.
    - destruct (response_op2_body E o p 0 Hinv) as (pa & oa & Ha & Ia & Ea).
      destruct (IH pa Ia) as (pb & ob & Hb & Ib & Eb).
      simpl. rewrite Ha. simpl. rewrite Hb. simpl.
      eexists. eexists. split; [reflexivity|]. split; [exact Ib|].
      intros Hsome. rewrite Eb; [now apply Ea|]. rewrite (Ea Hsome). exact Hsome. }
  destruct Hgen as (p1 & outs & Hi & (h & s & Hh & Hs & Hc & Hn) & He).
  exists p1, outs. eexists. split; [exact Hi|].
  unfold finish2. rewrite Hi. simpl. unfold SecondRevision.Done.
  rewrite Hh, Hs. split; [reflexivity|].
  split; [rewrite (closes_of_Body p1 h s Hh Hs); now rewrite Hn|].
  split; [|exact He].
  rewrite closes_of_with_Body. unfold Close. rewrite Hc. simpl. now rewrite Hn.
Qed.

(** * Multipart forms *)

Section FormProperties.

Variable M : questmultipart.Multipart.

Lemma form_op_from_clean {V : Type} (o : questmultipart.FormOp (questmultipart.MW M) V)
    (f : questmultipart.Form (questmultipart.MW M)) :
  questmultipart.apply_form_op M o f
  = match questmultipart.apply_form_op M o (questmultipart.clean f) with
    | Ok c => Ok (questmultipart.later c f)
    | Panic reason => Panic reason
    end.
Proof.
  destruct o; simpl;
    unfold questmultipart.AddFile, questmultipart.AddField, questmultipart.Close,
      questmultipart.clean, questmultipart.later, mbind, Res_bind; simpl;
    repeat (case_match; simpl in *; simplify_eq); reflexivity.
Qed.

Lemma clean_later (c f : questmultipart.Form (questmultipart.MW M)) :
  questmultipart.clean (questmultipart.later c f) = questmultipart.clean c.
Proof. reflexivity. Qed.

Lemma later_later (c2 c1 f : questmultipart.Form (questmultipart.MW M)) :
  questmultipart.later c2 (questmultipart.later c1 f)
  = questmultipart.later (questmultipart.later c2 c1) f.
Proof.
  unfold questmultipart.later. simpl.
  destruct (questmultipart.Err c2); reflexivity.
Qed.

Lemma fill_from_clean {V : Type} (ops : list (questmultipart.FormOp (questmultipart.MW M) V))
    (f : questmultipart.Form (questmultipart.MW M)) :
  questmultipart.fill M ops f
  = match questmultipart.fill M ops (questmultipart.clean f) with
    | Ok c => Ok (questmultipart.later c f)
    | Panic reason => Panic reason
    end.
Proof.
  revert f. induction ops as [|o ops IH]; intros f.
  - simpl. destruct f; reflexivity.
  - simpl. rewrite (form_op_from_clean o f).
    destruct (questmultipart.apply_form_op M o (questmultipart.clean f))
      as [c1|reason]; [|reflexivity].
    simpl. rewrite (IH (questmultipart.later c1 f)), (IH c1), clean_later.
    destruct (questmultipart.fill M ops (questmultipart.clean c1));
      [|reflexivity].
    now rewrite later_later.
Qed.

Lemma fill_app {V : Type} (pre post : list (questmultipart.FormOp (questmultipart.MW M) V))
    (f : questmultipart.Form (questmultipart.MW M)) :
  questmultipart.fill M (pre ++ post) f
  = (f1 ← questmultipart.fill M pre f; questmultipart.fill M post f1).
Proof.
  revert f. induction pre as [|o pre IH]; intros f; [reflexivity|].
  simpl. destruct (questmultipart.apply_form_op M o f); [apply IH|reflexivity].
Qed.

(** X15. A form does not short-circuit and reports the last failure.
    The bytes a sequence of operations writes do not depend on the
    error the form already holds; an error is never cleared by later
    operations that succeed; and an operation that fails replaces the
    error recorded before, so that [Err] is the error of the last
    operation that failed. *)
Theorem form_keeps_last_error {V : Type} (ops : list (questmultipart.FormOp (questmultipart.MW M) V))
    (o : questmultipart.FormOp (questmultipart.MW M) V) (f f1 : questmultipart.Form (questmultipart.MW M)) :
  questmultipart.fill M ops f = Ok f1 ->
  (exists c, questmultipart.fill M ops (questmultipart.clean f) = Ok c /\
             questmultipart.writer f1 = questmultipart.writer c /\
             questmultipart.Err f1
             = match questmultipart.Err c with
               | Some e => Some e
               | None => questmultipart.Err f
               end) /\
  (is_Some (questmultipart.Err f) -> is_Some (questmultipart.Err f1)) /\
  (forall c' e,
      questmultipart.apply_form_op M o (questmultipart.clean f1) = Ok c' ->
      questmultipart.Err c' = Some e ->
      exists f2,
        questmultipart.fill M (ops ++ [o]) f = Ok f2 /\
        questmultipart.Err f2 = Some e).
Proof.
  intros Hfill. rewrite fill_from_clean in Hfill.
  destruct (questmultipart.fill M ops (questmultipart.clean f)) as [c|] eqn:Hc;
    [|discriminate].
  simplify_eq. split; [|split].
  - exists c. split; [reflexivity|]. split; reflexivity.
  - intros [e He]. simpl. rewrite He. destruct (questmultipart.Err c); eauto.
  - intros c' e Hop He.
    rewrite fill_app, (fill_from_clean ops f), Hc. simpl.
    rewrite (form_op_from_clean o). rewrite clean_later.
    change (questmultipart.clean c)
      with (questmultipart.clean (questmultipart.later c f)).
    rewrite Hop. eexists. split; [reflexivity|]. simpl. now rewrite He.
Qed.


End FormProperties.

(** * Rendering errors *)

Lemma HasPrefix_split (s p : string) :
  strings.HasPrefix s p = true -> exists b, s = p +:+ b.
Proof.
  revert s. induction p as [|c p IH]; intros s H.
  - exists s. reflexivity.
  - destruct s as [|d s]; simpl in H; [discriminate|].
    destruct (Ascii.eqb c d) eqn:Hcd; [|discriminate].
    apply Ascii.eqb_eq in Hcd. subst d.
    destruct (IH s H) as [b ->]. exists b. reflexivity.
Qed.

Lemma Contains_split (s sub : string) :
  strings.Contains s sub = true -> exists a b, s = a +:+ sub +:+ b.
Proof.
  induction s as [|c s IH]; rewrite Contains_unfold; intros H.
  - apply orb_true_iff in H as [H|H]; [|discriminate].
    destruct (HasPrefix_split _ _ H) as [b Hb]. exists EmptyString, b. exact Hb.
  - apply orb_true_iff in H as [H|H].
    + destruct (HasPrefix_split _ _ H) as [b Hb]. exists EmptyString, b. exact Hb.
    + destruct (IH H) as (a & b & ->). exists (String c a), b. reflexivity.
Qed.

Lemma Contains_inside (a s b sub : string) :
  strings.Contains s sub = true ->
  strings.Contains (a +:+ s +:+ b) sub = true.
Proof.
  intros H. destruct (Contains_split s sub H) as (x & y & ->).
  replace (a +:+ (x +:+ sub +:+ y) +:+ b) with ((a +:+ x) +:+ sub +:+ (y +:+ b))
    by (rewrite !append_assoc; reflexivity).
  apply Contains_app.
Qed.

Section RenderingProperties.

Variable D : Renderer.
Variable E : Env.

Lemma Request_format_frozen (r r' : Request) :
  frozen r r' -> Request_format D r' = Request_format D r.
Proof.
  intros (Hu & Hm & Hh & Hd & _).
  unfold Request_format, Request_MarshalJSON. now rewrite Hu, Hm, Hh, Hd.
Qed.

(** X17. The text of a request error shows the request as it was when
    the failure was recorded: rendering it after any further builder
    operations gives the same text.  On a request with a body buffer the
    rendering returns, and the text contains the message and whatever
    the message contains; on a nil buffer it faults. *)
Theorem request_error_text (message sub : string)
    (ops : list (RequestOp (JSONValue E))) (r r' : Request) :
  err r = Some (requestError message) ->
  build E ops r = Ok r' ->
  requestError_Error D message r' = requestError_Error D message r /\
  (is_Some (data r) ->
   strings.Contains message sub = true ->
   exists text, requestError_Error D message r = Ok text /\
                strings.Contains text message = true /\
                strings.Contains text sub = true) /\
  (data r = None -> requestError_Error D message r = Panic nil_deref).
Proof.
  intros He Hb.
  destruct (build_failed E ops r _ He) as (r2 & Hb2 & F).
  rewrite Hb2 in Hb. simplify_eq. split; [|split].
  - unfold requestError_Error. now rewrite (Request_format_frozen r r' F).
  - intros [d Hd] Hsub. unfold requestError_Error, Request_format,
      Request_MarshalJSON. rewrite Hd. simpl.
    eexists. split; [reflexivity|]. split.
    + apply Contains_app.
    + apply Contains_inside. exact Hsub.
  - intros Hd. unfold requestError_Error, Request_format, Request_MarshalJSON.
    now rewrite Hd.
Qed.

(** X18. Rendering a response error reads the body away.  On a response
    with a body, whose request has a body buffer, the rendering
    returns; its text contains the message and whatever the message
    contains and ends with the dump of the response with the bytes that
    were unread; the stream is left empty and as closed as it was, so
    that a second rendering ends with the dump of an empty body. *)
Theorem response_error_text (message sub : string) (p : Response)
    (h : http_Response) (s : Stream) :
  Response_ p = Some h ->
  Body h = Some s ->
  is_Some (data (req p)) ->
  strings.Contains message sub = true ->
  let emptied := with_Body {| unread := EmptyString; closes := closes s;
                              closer := closer s |} h p in
  let dump body :=
    match MarshalIndent_response D (StatusCode h) (Header h) body
            (ContentLength h) with
    | inl b => Reindent D b
    | inr _ => EmptyString
    end in
  exists before,
    responseError_Error D message p
    = Ok (before +:+ dump (fst (read_all s)), emptied) /\
    responseError_Error D message emptied
    = Ok (before +:+ dump EmptyString, emptied) /\
    strings.Contains before message = true /\
    strings.Contains before sub = true /\
    closes_of emptied = closes_of p.
Proof.
  intros Hh Hs [d Hd] Hsub emptied dump.
  unfold responseError_Error, Request_format, Request_MarshalJSON,
    Response_format, Response_MarshalJSON, read_all.
  subst emptied dump. simpl. rewrite Hd, Hh, Hs. simpl.
  exists ("[Quest]: Request Error - " +:+ message +:+ newline +:+ newline
            +:+ "Request Info:" +:+ newline +:+ " "
            +:+ match MarshalIndent_request D (URL_ (req p)) (method (req p)) d
                        (headers (req p)) with
                | inl b => Reindent D b
                | inr _ => EmptyString
                end
            +:+ newline +:+ newline +:+ "Response Info:" +:+ newline +:+ " ").
  split; [|split; [|split; [|split]]].
  - rewrite !append_assoc. reflexivity.
  - destruct (closer s && _); rewrite !append_assoc; reflexivity.
  - apply Contains_app.
  - apply Contains_inside. exact Hsub.
  - rewrite (closes_of_Body p h s Hh Hs). reflexivity.
Qed.

End RenderingProperties.

(** * The further properties at concrete inputs *)


(** Two values for [Accept] on a fresh request. *)
Lemma Header_last_write_wins_witness :
  let r := Get Ref.env "http://x/a" in
  err r = None /\ headers r = Some default_headers /\
  (r1 ← Header_set "Accept" "text/html" r; Header_set "Accept" "text/plain" r1)
  = Header_set "Accept" "text/plain" r /\
  (r1 ← Header_set "Accept" "text/html" r; Header_set "accept" "text/plain" r1)
  = (r1 ← Header_set "accept" "text/plain" r; Header_set "Accept" "text/html" r1).
Proof.
  intros r.
  assert (He : err r = None) by (vm_compute; reflexivity).
  assert (Hh : headers r = Some default_headers) by (vm_compute; reflexivity).
  split; [exact He|]. split; [exact Hh|].
  destruct (Header_last_write_wins "Accept" "accept" "text/html" "text/plain"
              r default_headers He Hh) as (_ & Hlast & Hcomm).
  split; [exact Hlast|]. apply Hcomm. discriminate.
Defined.

(** A channel as JSON body. *)
Lemma JSONBody_all_or_nothing_witness :
  let r := Post Ref.env "http://x/a" in
  err r = None /\ headers r = Some default_headers /\
  exists r',
    JSONBody Ref.env Ref.VChan r = Ok r' /\
    URL_ r' = URL_ r /\ method r' = method r /\ span r' = span r /\
    err r' = Some (requestError "json: unsupported type: chan int") /\
    headers r' = headers r /\ data r' = data r.
Proof.
  intros r.
  assert (He : err r = None) by (vm_compute; reflexivity).
  assert (Hh : headers r = Some default_headers) by (vm_compute; reflexivity).
  split; [exact He|]. split; [exact Hh|].
  exact (JSONBody_all_or_nothing Ref.env Ref.VChan r default_headers He Hh).
Defined.

(** The call made for [/missing]. *)
Lemma Send_dispatch_witness :
  Send Ref.env built_missing = Ok sent_missing /\
  same_but_err built_missing (req (fst sent_missing)) /\
  length (snd sent_missing) = 1%nat.
Proof.
  assert (Hs : Send Ref.env built_missing = Ok (fst sent_missing, snd sent_missing))
    by (vm_compute; reflexivity).
  split; [exact Hs|].
  destruct (Send_dispatch Ref.env built_missing _ _ Hs) as (Hframe & _).
  split; [exact Hframe | reflexivity].
Defined.

(** [ExpectSuccess] on the 404 answer. *)
Lemma inspect_frame_witness :
  inspect Ref.env [OpExpectSuccess] (fst sent_missing) = Ok (inspected_missing, []) /\
  same_but_err (req (fst sent_missing)) (req inspected_missing) /\
  same_answer (fst sent_missing) inspected_missing.
Proof.
  assert (Hi : inspect Ref.env [OpExpectSuccess] (fst sent_missing)
               = Ok (inspected_missing, [])) by (vm_compute; reflexivity).
  split; [exact Hi|].
  destruct (inspect_frame Ref.env _ _ _ _ Hi) as (H1 & H2 & _). auto.
Defined.

(** The chain on [/missing] ends with a response error after one call. *)
Lemma failure_kinds_witness :
  let bops := [OpHeader "X-Some-Header" "t"] in
  let rops := [OpExpectSuccess; OpGetBody] in
  err (Get Ref.env "http://x/missing") = None /\
  chain Ref.env bops rops (Get Ref.env "http://x/missing") = Ok outcome_missing /\
  (result outcome_missing = None \/
   (exists text, result outcome_missing = Some (requestError text) /\
                 (length (wire outcome_missing) <= 1)%nat /\
                 outputs outcome_missing = []) \/
   (exists text, result outcome_missing = Some (responseError text) /\
                 length (wire outcome_missing) = 1%nat) \/
   (exists f e, In (OpMultipartBody (Some f)) bops /\ Err f = Some e /\
                result outcome_missing = Some e /\ wire outcome_missing = [] /\
                outputs outcome_missing = [])).
Proof.
  intros bops rops.
  assert (He : err (Get Ref.env "http://x/missing") = None)
    by (vm_compute; reflexivity).
  assert (Hc : chain Ref.env bops rops (Get Ref.env "http://x/missing")
               = Ok outcome_missing) by (vm_compute; reflexivity).
  split; [exact He|]. split; [exact Hc|].
  exact (failure_kinds Ref.env bops rops _ _ He Hc).
Defined.


(** No [X-Other] header on the answer. *)
Lemma header_edge_cases_witness :
  let p := served 200 "text/plain" in
  err (req p) = None /\
  ExpectHeader Ref.env "X-Other" EmptyString p = Ok (p, []) /\
  (exists text, ExpectHeader Ref.env "X-Other" "v" p = Ok (fail text p, [])) /\
  GetHeader Ref.env "x-other" p = Ok (p, [Stored EmptyString]).
Proof.
  intros p.
  assert (He : err (req p) = None) by (vm_compute; reflexivity).
  split; [exact He|].
  destruct (header_edge_cases Ref.env "X-Other" "v" p answer_hello He eq_refl)
    as (H1 & H2 & _).
  destruct (header_edge_cases Ref.env "x-other" "v" p answer_hello He eq_refl)
    as (_ & _ & H3).
  split; [exact H1|]. split.
  - apply H2; [vm_compute; reflexivity | discriminate].
  - apply H3. vm_compute. reflexivity.
Defined.

(** [PrintJSON] before [GetBody] on the reference answer. *)
Lemma PrintJSON_rebuffers_witness :
  let p := served 200 "text/plain" in
  err (req p) = None /\
  (exists p1, inspect Ref.env [OpGetBody] p = Ok (p1, [Stored Ref.TestString])) /\
  (exists p2,
      inspect Ref.env [OpPrintJSON; OpGetBody] p
      = Ok (p2, [Printed ("Response JSON:" +:+ Ref.TestString +:+ newline);
                 Stored Ref.TestString])).
Proof.
  intros p.
  assert (He : err (req p) = None) by (vm_compute; reflexivity).
  split; [exact He|].
  destruct (PrintJSON_rebuffers Ref.env [] p answer_hello stream_hello He
              eq_refl eq_refl) as (H1 & H2 & _).
  split; [exact H1 | exact H2].
Defined.



(** Two more values for a key the query already has. *)
Lemma QueryParam_appends_witness :
  let r := Get Ref.env "http://x/a?k=0" in
  err r = None /\ URL_ r = Some sample_url_query /\
  (r1 ← QueryParam Ref.env "k" "1" r; QueryParam Ref.env "k" "2" r1)
  = Ok (set_URL (Some (set_RawQuery "k=0&k=1&k=2" sample_url_query)) r).
Proof.
  intros r.
  assert (He : err r = None) by (vm_compute; reflexivity).
  assert (Hu : URL_ r = Some sample_url_query) by (vm_compute; reflexivity).
  split; [exact He|]. split; [exact Hu|].
  refine (eq_trans
            (proj1 (QueryParam_appends Ref.env "k" "1" "2" r sample_url_query
                      He Hu _)) _);
    vm_compute; reflexivity.
Defined.


(** Two requests after a failure, both on paths that parse. *)
Lemma failure_crosses_requests_witness :
  let n := {| next_err := Some no_scheme_error |} in
  next_err n = Some no_scheme_error /\
  follow Ref.env n sample_links = Ok (Some no_scheme_error, []).
Proof.
  intros n. split; [reflexivity|].
  destruct (proj1 (failure_crosses_requests Ref.env sample_links n
                     no_scheme_error eq_refl)) as (e' & Hf & Hsame).
  rewrite Hf. rewrite Hsame; [reflexivity|].
  repeat constructor.
  - exists sample_url. vm_compute. reflexivity.
  - eexists. vm_compute. reflexivity.
Defined.

(** The second revision on the reference answer, read or not. *)
Lemma Done_closes_once_witness :
  let p := served 200 "text/plain" in
  (exists p2, finish2 Ref.env [Op2ExpectSuccess] p = Ok (p2, None) /\
              closes_of p2 = Some 1%nat) /\
  (exists p2 e, finish2 Ref.env [Op2ExpectStatusCode 404; Op2GetBody] p
                = Ok (p2, Some e) /\
                closes_of p2 = Some 1%nat).
Proof.
  intros p. split.
  - destruct (Done_closes_once Ref.env [Op2ExpectSuccess] p answer_hello
                stream_hello eq_refl eq_refl eq_refl eq_refl)
      as (p1 & outs & p2 & Hi & Hf & _ & Hc & _).
    exists p2. split; [|exact Hc]. rewrite Hf. f_equal. f_equal.
    assert (Hx : inspect2 Ref.env [Op2ExpectSuccess] p = Ok (p, []))
      by (vm_compute; reflexivity).
    rewrite Hx in Hi. now simplify_eq.
  - destruct (Done_closes_once Ref.env [Op2ExpectStatusCode 404; Op2GetBody] p
                answer_hello stream_hello eq_refl eq_refl eq_refl eq_refl)
      as (p1 & outs & p2 & Hi & Hf & _ & Hc & _).
    exists p2. eexists. split; [|exact Hc]. rewrite Hf. f_equal. f_equal.
    assert (Hx : err (req p1)
                 = Some (responseError
                           "Invalid StatusCode. Expected to be '404', got '200'")).
    { assert (Hy : (fun x => err (req (fst x)))
                     <$> inspect2 Ref.env [Op2ExpectStatusCode 404; Op2GetBody] p
                   = Ok (Some (responseError
                           "Invalid StatusCode. Expected to be '404', got '200'")))
        by (vm_compute; reflexivity).
      rewrite Hi in Hy. simpl in Hy. now simplify_eq. }
    exact Hx.
Defined.

(** A file that cannot be encoded between two fields. *)
Lemma form_keeps_last_error_witness :
  let start := questmultipart.New RefMultipart.ops in
  let again := questmultipart.OpAddFile "other" "b.json" Ref.VChan
                 (questmultipart.JSONEncode RefMultipart.ops Ref.env) in
  questmultipart.fill RefMultipart.ops sample_form_ops start = Ok sample_form /\
  questmultipart.Err sample_form
  = Some (errorString "json: unsupported type: chan int") /\
  exists f2,
    questmultipart.fill RefMultipart.ops (sample_form_ops ++ [again]) start = Ok f2 /\
    questmultipart.Err f2 = Some (errorString "json: unsupported type: chan int").
Proof.
  intros start again.
  assert (Hf : questmultipart.fill RefMultipart.ops sample_form_ops start
               = Ok sample_form) by (vm_compute; reflexivity).
  split; [exact Hf|]. split; [reflexivity|].
  destruct (form_keeps_last_error RefMultipart.ops sample_form_ops again start
              sample_form Hf) as (_ & _ & Hlast).
  eapply Hlast; vm_compute; reflexivity.
Defined.


(** The request error of the failing build, rendered before and after a
    further [Header]. *)
Lemma request_error_text_witness :
  err after_failing_build = Some (requestError "json: unsupported type: chan int") /\
  build Ref.env [OpHeader "A" "b"] after_failing_build = Ok after_failing_build /\
  exists text,
    requestError_Error plain_renderer "json: unsupported type: chan int"
      after_failing_build = Ok text /\
    strings.Contains text "json: unsupported type: chan int" = true /\
    strings.Contains text "chan int" = true.
Proof.
  assert (He : err after_failing_build
               = Some (requestError "json: unsupported type: chan int"))
    by (vm_compute; reflexivity).
  assert (Hb : build Ref.env [OpHeader "A" "b"] after_failing_build
               = Ok after_failing_build) by (vm_compute; reflexivity).
  split; [exact He|]. split; [exact Hb|].
  destruct (request_error_text plain_renderer Ref.env
              "json: unsupported type: chan int" "chan int"
              [OpHeader "A" "b"] after_failing_build after_failing_build He Hb)
    as (_ & Htext & _).
  apply Htext; [vm_compute; eauto | vm_compute; reflexivity].
Defined.

(** The response error of the 404 answer, rendered twice. *)
Lemma response_error_text_witness :
  let message := "Invalid StatusCode. Expected to be in 200 range, got '404'" in
  exists before emptied,
    responseError_Error plain_renderer message inspected_missing
    = Ok (before +:+ "404 404 page not found", emptied) /\
    responseError_Error plain_renderer message emptied
    = Ok (before +:+ "404 ", emptied) /\
    strings.Contains before "404" = true.
Proof.
  intros message.
  destruct (response_error_text plain_renderer message "404" inspected_missing
              answer_missing
              {| unread := "404 page not found"; closes := 0; closer := true |}
              ltac:(vm_compute; reflexivity) ltac:(vm_compute; reflexivity)
              ltac:(vm_compute; eauto) ltac:(vm_compute; reflexivity))
    as (before & H1 & H2 & _ & H3 & _).
  exists before. eexists. split; [exact H1|]. split; [exact H2 | exact H3].
Defined.
